(** * Lavis icon generator: a shallow embedding of [generate-icon.py]

    The script under [src/frontend/scripts/generate-icon.py] has two parts:

    - [generate_svg], which builds the text of an SVG document from a pixel
      size by Python string formatting of integers and of binary64 floats;
    - [main], which writes one temporary SVG per size entry, tries three
      external converters in turn, cleans up, copies the 1024 bitmap and
      finally calls [iconutil].

    The first part is embedded as a function on strings over a model of
    Python's [int] and [float] formatting; the second as a program in a
    state-and-exception monad over a file map, an output log and an oracle
    that stands for the external processes. *)

From Stdlib Require Import ZArith String Ascii List Lia.
From Stdlib Require Import Floats.SpecFloat.
From stdpp Require Import gmap strings.

Open Scope Z_scope.

(** stdpp freezes [String.append] under [simpl]; the proofs below compute
    with it on literal text. *)
Arguments String.append !_ _ / : simpl nomatch.

(** ** Text helpers *)

Module Text.

(** The source text is full of double quotes.  In the literals below a
    backquote stands for one; [q] puts the double quotes back.  No backquote
    occurs in the script's own strings. *)
Definition dquote : ascii := ascii_of_nat 34.
Definition backquote : ascii := ascii_of_nat 96.

Fixpoint q (s : string) : string :=
  match s with
  | EmptyString => EmptyString
  | String c s' =>
      String (if Ascii.eqb c backquote then dquote else c) (q s')
  end.

Definition newline : string := String (ascii_of_nat 10) EmptyString.

Fixpoint concat_all (l : list string) : string :=
  match l with
  | nil => EmptyString
  | s :: l' => s +:+ concat_all l'
  end.

Fixpoint repeat_char (c : ascii) (n : nat) : string :=
  match n with
  | O => EmptyString
  | S n' => String c (repeat_char c n')
  end.

Fixpoint occurs (c : ascii) (s : string) : bool :=
  match s with
  | EmptyString => false
  | String d s' => Ascii.eqb c d || occurs c s'
  end.

(** Texts over an alphabet. *)
Fixpoint over (alphabet s : string) : bool :=
  match s with
  | EmptyString => true
  | String c s' => occurs c alphabet && over alphabet s'
  end.

(** Python's [str.strip()] with no argument, on the ASCII whitespace the
    script's template can contain. *)
Definition is_space (c : ascii) : bool :=
  let n := nat_of_ascii c in
  ((9 <=? n)%nat && (n <=? 13)%nat) || (n =? 32)%nat || ((28 <=? n)%nat && (n <=? 31)%nat).

(** Whitespace only. *)
Fixpoint blank (s : string) : bool :=
  match s with
  | EmptyString => true
  | String c s' => is_space c && blank s'
  end.

Fixpoint lstrip (s : string) : string :=
  match s with
  | EmptyString => EmptyString
  | String c s' => if is_space c then lstrip s' else s
  end.

Fixpoint rstrip (s : string) : string :=
  match s with
  | EmptyString => EmptyString
  | String c s' =>
      match rstrip s' with
      | EmptyString => if is_space c then EmptyString else String c EmptyString
      | r => String c r
      end
  end.

Definition strip (s : string) : string := rstrip (lstrip s).

(** [drop_prefix pat s]: what is left of [s] once the leading [pat] is taken
    off, if [s] starts with [pat]. *)
Fixpoint drop_prefix (pat s : string) {struct s} : option string :=
  match pat with
  | EmptyString => Some s
  | String a pat' =>
      match s with
      | EmptyString => None
      | String b s' => if Ascii.eqb a b then drop_prefix pat' s' else None
      end
  end.

(** [after pat s]: the text of [s] that follows the first occurrence of [pat]. *)
Fixpoint after (pat s : string) : option string :=
  match drop_prefix pat s with
  | Some rest => Some rest
  | None =>
      match s with
      | EmptyString => None
      | String _ s' => after pat s'
      end
  end.

(** [stops_short al pat s]: [pat] cannot be read at the head of [s] followed
    by a non-empty text over [al], and [free_of al pat s]: nor at any later
    place of [s]. *)
Fixpoint stops_short (al pat s : string) {struct s} : bool :=
  match pat with
  | EmptyString => false
  | String a pat' =>
      match s with
      | EmptyString => negb (occurs a al)
      | String b s' => if Ascii.eqb a b then stops_short al pat' s' else true
      end
  end.

Fixpoint free_of (al pat s : string) : bool :=
  stops_short al pat s &&
  match s with
  | EmptyString => true
  | String _ s' => free_of al pat s'
  end.

(** [upto c s]: the text of [s] before the first [c], if [c] occurs. *)
Fixpoint upto (c : ascii) (s : string) : option string :=
  match s with
  | EmptyString => None
  | String d s' =>
      if Ascii.eqb c d then Some EmptyString
      else option_map (String d) (upto c s')
  end.

(** The value of the first attribute written [ name="..."] in a document:
    the text between the first occurrence of the name, preceded by a blank
    and followed by an equals sign and a double quote, and the next double
    quote. *)
Definition attribute (name doc : string) : option string :=
  match after (String " " (name +:+ String "=" (String dquote EmptyString))) doc with
  | Some rest => upto dquote rest
  | None => None
  end.

End Text.

(** ** Python numbers: [str(int)], binary64 arithmetic and [repr(float)] *)

Module Py.

Definition digit_char (d : Z) : ascii := ascii_of_nat (48 + Z.to_nat d).

Fixpoint digits_acc (fuel : nat) (n : Z) (acc : string) : string :=
  match fuel with
  | O => acc
  | S fuel' =>
      let acc' := String (digit_char (n mod 10)) acc in
      if n <? 10 then acc' else digits_acc fuel' (n / 10) acc'
  end.

(** Decimal digits of a natural number; a number has no more decimal digits
    than binary ones, which bounds the recursion. *)
Definition digits (n : Z) : string :=
  digits_acc (S (Z.to_nat (Z.log2 n))) n EmptyString.

(** [str(n)] for a Python [int]. *)
Definition str_int (n : Z) : string :=
  if n <? 0 then String "-" (digits (- n)) else digits n.

(** *** binary64 *)

Definition prec : Z := 53.
Definition emax : Z := 1024.

Abbreviation float := spec_float.

Definition fmul : float -> float -> float := SFmul prec emax.
Definition fadd : float -> float -> float := SFadd prec emax.
Definition fsub : float -> float -> float := SFsub prec emax.
Definition fdiv : float -> float -> float := SFdiv prec emax.

(** [float(n)] as Python applies it to the [int] operand of a mixed
    operation: round to nearest even, [OverflowError] ([None]) when the
    integer is too large for a finite double. *)
Definition float_of_int (n : Z) : option float :=
  match binary_normalize prec emax n 0 false with
  | S754_infinity _ => None
  | f => Some f
  end.

(** The double denoted by a decimal literal [num / den] with [num] and [den]
    exactly representable: one correctly rounded division. *)
Definition literal (num den : Z) : float :=
  fdiv (binary_normalize prec emax num 0 false)
       (binary_normalize prec emax den 0 false).

(** *** [repr(float)]: the shortest decimal string that reads back as the
    same double (ties in reading go to the even mantissa), closest to the
    true value among the shortest. *)

Section Shortest.
(** The double is [m * 2^e], [m > 0].  All quantities are kept in units of
    [2^(e-2)]: the value is [4m], the upper end of its rounding interval
    [4m+2], the lower end [4m-2], or [4m-1] just above a binade boundary. *)
Variables (m e : Z).

Let e2 := e - 2.
Let ep := Z.max e2 0.
Let en := Z.max (- e2) 0.

Definition mid : Z := 4 * m.
Definition high : Z := 4 * m + 2.
Definition low : Z :=
  if (m =? 2 ^ (prec - 1)) && (3 - emax - prec <? e) then 4 * m - 1 else 4 * m - 2.
Definition closed : bool := Z.even m.

(** [d * 10^k] against [n * 2^(e-2)], both sides cleared of denominators. *)
Definition lhs (d k : Z) : Z := d * 10 ^ Z.max k 0 * 2 ^ en.
Definition rhs (n k : Z) : Z := n * 2 ^ ep * 10 ^ Z.max (- k) 0.

Definition below_high (d k : Z) : bool :=
  if closed then lhs d k <=? rhs high k else lhs d k <? rhs high k.
Definition above_low (d k : Z) : bool :=
  (0 <? d) && (if closed then rhs low k <=? lhs d k else rhs low k <? lhs d k).

(** Try grids [10^k], coarsest first; on each the only candidates are the
    two multiples of [10^k] around the value. *)
Fixpoint search (fuel : nat) (k : Z) : Z * Z :=
  match fuel with
  | O => (0, 0)
  | S fuel' =>
      let a := rhs mid k in
      let b := lhs 1 k in
      let dlo := a / b in
      let dhi := dlo + 1 in
      let oklo := above_low dlo k in
      let okhi := below_high dhi k in
      if (a mod b =? 0) && (0 <? dlo) then (dlo, k)
      else if oklo && okhi then
        match (a - dlo * b) ?= (dhi * b - a) with
        | Lt => (dlo, k)
        | Gt => (dhi, k)
        | Eq => if Z.even dlo then (dlo, k) else (dhi, k)
        end
      else if oklo then (dlo, k)
      else if okhi then (dhi, k)
      else search fuel' (k - 1)
  end.

(** A power of ten above the value to start from. *)
Definition start : Z := (e + Z.log2 m + 1) * 30103 / 100000 + 2.

Definition shortest : Z * Z := search 40 start.
End Shortest.

(** Python's layout of the digits ([float_repr_style] short, format code
    [r]): positional when the decimal point falls within (-4, 16], with
    [.0] added to an integral value, exponent notation otherwise. *)
Definition exponent_text (x : Z) : string :=
  let a := Z.abs x in
  String (if x <? 0 then "-"%char else "+"%char)
         (if a <? 10 then String "0" (digits a) else digits a).

Definition layout (ds : string) (decpt : Z) : string :=
  let n := Z.of_nat (String.length ds) in
  if (decpt <=? -4) || (16 <? decpt) then
    match ds with
    | EmptyString => EmptyString
    | String c EmptyString => String c (String "e" (exponent_text (decpt - 1)))
    | String c rest => String c (String "." (rest +:+ String "e" (exponent_text (decpt - 1))))
    end
  else if decpt <=? 0 then
    "0." +:+ Text.repeat_char "0" (Z.to_nat (- decpt)) +:+ ds
  else if decpt <? n then
    substring 0 (Z.to_nat decpt) ds +:+ "." +:+
    substring (Z.to_nat decpt) (Z.to_nat (n - decpt)) ds
  else
    ds +:+ Text.repeat_char "0" (Z.to_nat (decpt - n)) +:+ ".0".

Definition repr_float (x : float) : string :=
  match x with
  | S754_zero s => if s then "-0.0" else "0.0"
  | S754_infinity s => if s then "-inf" else "inf"
  | S754_nan => "nan"
  | S754_finite s m e =>
      let '(d, k) := shortest (Zpos m) e in
      let ds := digits d in
      let body := layout ds (k + Z.of_nat (String.length ds)) in
      if s then String "-" body else body
  end.

(** The characters [str(int)] and [repr(float)] are made of. *)
Definition numerals : string := "0123456789.e+-infa".

(** A formatted number: not empty and free of characters foreign to
    [numerals]. *)
Definition numeric (s : string) : Prop := s ≠ EmptyString ∧ Text.over numerals s = true.

End Py.

(** ** The descriptor generator ([generate_svg], lines 31-91) *)

Module Svg.
Import Text Py.

(** The float literals of the function, as the doubles Python reads. *)
Definition CORNER_RADIUS_RATIO : float := Eval vm_compute in literal 22 100.
Definition lit_0_22 : float := Eval vm_compute in literal 22 100.
Definition lit_0_45 : float := Eval vm_compute in literal 45 100.
Definition lit_0_56 : float := Eval vm_compute in literal 56 100.
Definition lit_0_12 : float := Eval vm_compute in literal 12 100.
Definition lit_0_02 : float := Eval vm_compute in literal 2 100.
Definition lit_0_01 : float := Eval vm_compute in literal 1 100.
Definition lit_2 : float := Eval vm_compute in binary_normalize prec emax 2 0 false.

(** [size * c] with [size] an [int] and [c] a [float]: the integer is
    converted first, which is the one step of the function that can raise. *)
Definition int_times (size : Z) (c : float) : option float :=
  f ← float_of_int size; Some (fmul f c).

(** [x / 2] with [x] a [float]. *)
Definition half (x : float) : float := fdiv x lit_2.

(** The text of the function's result; [None] stands for the
    [OverflowError] of the conversion. *)
Definition generate_svg (size : Z) : option string :=
  corner_radius ← int_times size CORNER_RADIUS_RATIO;
  padding ← int_times size lit_0_22;
  l_width ← int_times size lit_0_45;
  l_height ← int_times size lit_0_56;
  stroke_width ← int_times size lit_0_12;
  let l_x := padding in
  let l_y := padding in
  let l_path := concat_all
      ["
    M "; repr_float (fadd l_x (half stroke_width)); " "; repr_float l_y; "
    L "; repr_float (fadd l_x (half stroke_width)); " ";
         repr_float (fsub (fadd l_y l_height) (half stroke_width)); "
    L "; repr_float (fadd l_x l_width); " ";
         repr_float (fsub (fadd l_y l_height) (half stroke_width)); "
    "] in
  blur ← int_times size lit_0_02;
  dx ← int_times size lit_0_01;
  dy ← int_times size lit_0_01;
  Some (concat_all
      [q "<?xml version=`1.0` encoding=`UTF-8`?>
<svg width=`"; str_int size; q "` height=`"; str_int size;
       q "` viewBox=`0 0 "; str_int size; q " "; str_int size;
       q "` xmlns=`http://www.w3.org/2000/svg`>
  <defs>
    <!-- 微妙的渐变，增加质感 -->
    <linearGradient id=`bgGrad` x1=`0%` y1=`0%` x2=`100%` y2=`100%`>
      <stop offset=`0%` style=`stop-color:#242424`/>
      <stop offset=`100%` style=`stop-color:#1a1a1a`/>
    </linearGradient>

    <!-- L 的金色渐变 -->
    <linearGradient id=`lGrad` x1=`0%` y1=`0%` x2=`100%` y2=`100%`>
      <stop offset=`0%` style=`stop-color:#e8c068`/>
      <stop offset=`50%` style=`stop-color:#d4a853`/>
      <stop offset=`100%` style=`stop-color:#c49a48`/>
    </linearGradient>

    <!-- 内阴影效果 -->
    <filter id=`innerShadow` x=`-50%` y=`-50%` width=`200%` height=`200%`>
      <feGaussianBlur in=`SourceAlpha` stdDeviation=`"; repr_float blur;
       q "` result=`blur`/>
      <feOffset dx=`"; repr_float dx; q "` dy=`"; repr_float dy;
       q "`/>
      <feComposite in2=`SourceAlpha` operator=`arithmetic` k2=`-1` k3=`1`/>
      <feColorMatrix type=`matrix` values=`0 0 0 0 0  0 0 0 0 0  0 0 0 0 0  0 0 0 0.3 0`/>
      <feBlend in2=`SourceGraphic`/>
    </filter>
  </defs>

  <!-- 背景圆角矩形 -->
  <rect x=`0` y=`0` width=`"; str_int size; q "` height=`"; str_int size;
       q "` rx=`"; repr_float corner_radius; q "` ry=`"; repr_float corner_radius;
       q "` fill=`url(#bgGrad)`/>

  <!-- L 字母 -->
  <path d=`"; strip l_path; q "`
        fill=`none`
        stroke=`url(#lGrad)`
        stroke-width=`"; repr_float stroke_width; q "`
        stroke-linecap=`round`
        stroke-linejoin=`round`
        filter=`url(#innerShadow)`/>
</svg>"]).

End Svg.

(** ** The world of the script: files, output, external processes *)

Module Os.

(** The exceptions the script can meet.  [OSError] stands for every failure
    of the operating system other than a missing file (a program that may
    not be executed, a path that is not a directory). *)
Inductive exn : Type :=
  | CalledProcessError (returncode : Z) (cmd : list string)
  | FileNotFoundError
  | OSError
  | OverflowError.

(** How a statement ends: normally, by [continue], or by raising. *)
Inductive completion (A : Type) : Type :=
  | Normal (a : A)
  | Continue
  | Raise (e : exn).
Arguments Normal {A} a.
Arguments Continue {A}.
Arguments Raise {A} e.

(** What an attempt to run a program gives: it ran and exited with a status,
    the program was not found, or it could not be started for another reason. *)
Inductive spawned : Type :=
  | Exited (returncode : Z)
  | NotFound
  | CannotStart.

Definition failed (r : spawned) : bool :=
  match r with
  | Exited 0 => false
  | _ => true
  end.

(** A call of [subprocess.run]: the argument vector and what came of it. *)
Definition call : Type := list string * spawned.

(** The state threaded through the script.  [files] maps the path of each
    regular file to its content; directories are implicit in the paths.
    [stdout] holds the printed lines, [calls] the processes run so far, both
    oldest first.  [world] is whatever else the external programs depend on. *)
Record state (W : Type) : Type := State {
  files : gmap string string;
  stdout : list string;
  calls : list call;
  world : W
}.
Arguments State {W} _ _ _ _.
Arguments files {W} _.
Arguments stdout {W} _.
Arguments calls {W} _.
Arguments world {W} _.

Definition set_files {W} (f : gmap string string) (s : state W) : state W :=
  State f (stdout s) (calls s) (world s).

Section Monad.
Context {W : Type}.

Definition M (A : Type) : Type := state W → completion A * state W.

Definition ret {A} (a : A) : M A := fun s => (Normal a, s).
Definition raise {A} (e : exn) : M A := fun s => (Raise e, s).
Definition continue {A} : M A := fun s => (Continue, s).

Definition bind {A B} (m : M A) (k : A → M B) : M B :=
  fun s =>
    match m s with
    | (Normal a, s') => k a s'
    | (Continue, s') => (Continue, s')
    | (Raise e, s') => (Raise e, s')
    end.

(** [try: body except <classes>: handler]; [catches] tells the classes
    named by the clause, a bare [except:] catches all. *)
Definition try_except {A} (body : M A) (catches : exn → bool) (handler : exn → M A) : M A :=
  fun s =>
    match body s with
    | (Raise e, s') => if catches e then handler e s' else (Raise e, s')
    | r => r
    end.

(** [for x in xs: body]: [continue] ends one round, an exception the loop. *)
Fixpoint for_each {A} (xs : list A) (body : A → M unit) : M unit :=
  match xs with
  | [] => ret tt
  | x :: xs' =>
      fun s =>
        match body x s with
        | (Raise e, s') => (Raise e, s')
        | (_, s') => for_each xs' body s'
        end
  end.

Definition print (line : string) : M unit :=
  fun s => (Normal tt, State (files s) (stdout s ++ [line]) (calls s) (world s)).

(** [open(path, 'w')] followed by [write]. *)
Definition write_text (path content : string) : M unit :=
  fun s => (Normal tt, set_files (<[path := content]> (files s)) s).

(** [Path.exists()]. *)
Definition exists_ (path : string) : M bool :=
  fun s => (Normal (bool_decide (is_Some (files s !! path))), s).

(** [Path.rename(target)]: the target is replaced. *)
Definition rename (path target : string) : M unit :=
  fun s =>
    match files s !! path with
    | Some c => (Normal tt, set_files (<[target := c]> (delete path (files s))) s)
    | None => (Raise FileNotFoundError, s)
    end.

(** [Path.unlink(missing_ok=True)]. *)
Definition unlink_missing_ok (path : string) : M unit :=
  fun s => (Normal tt, set_files (delete path (files s)) s).

(** [shutil.copy(src, dst)] with [dst] a file path. *)
Definition copy (src dst : string) : M unit :=
  fun s =>
    match files s !! src with
    | Some c => (Normal tt, set_files (<[dst := c]> (files s)) s)
    | None => (Raise FileNotFoundError, s)
    end.

(** [Path.mkdir(parents=True, exist_ok=True)] on a directory whose
    ancestors above [parent] exist: it fails when a regular file is in the
    way and otherwise leaves the files alone. *)
Definition mkdir_parents_exist_ok (parent path : string) : M unit :=
  fun s =>
    match files s !! parent, files s !! path with
    | None, None => (Normal tt, s)
    | _, _ => (Raise OSError, s)
    end.

(** The external programs: given the argument vector, the world and the
    files, a program run says how it ended and leaves a world and files. *)
Variable exec : list string → W → gmap string string → spawned * W * gmap string string.

(** [subprocess.run(cmd, check=True)]. *)
Definition subprocess_run_check (cmd : list string) : M unit :=
  fun s =>
    let '(r, w', f') := exec cmd (world s) (files s) in
    let s' := State f' (stdout s) (calls s ++ [(cmd, r)]) w' in
    match r with
    | Exited 0 => (Normal tt, s')
    | Exited n => (Raise (CalledProcessError n cmd), s')
    | NotFound => (Raise FileNotFoundError, s')
    | CannotStart => (Raise OSError, s')
    end.
(** An assumption some statements make of the external programs: a run
    that fails leaves the file at [path] as it found it. *)
Definition quiet_on_failure (path : string) : Prop :=
  ∀ cmd w f, failed (exec cmd w f).1.1 = true → (exec cmd w f).2 !! path = f !! path.
End Monad.

Arguments M : clear implicits.

End Os.

#[global] Instance script_ret {W} : MRet (Os.M W) := @Os.ret W.
#[global] Instance script_bind {W} : MBind (Os.M W) := fun A B k m => Os.bind m k.

(** ** The driver ([main], lines 94-174) *)

Module Driver.
Import Text Py Os.

(** Lines 16-17. *)
Definition BACKGROUND_COLOR : string := "#1a1a1a".
Definition L_COLOR : string := "#d4a853".

(** Lines 21-29. *)
Definition SIZES : list (Z * Z) :=
  [ (16, 1); (16, 2);
    (32, 1); (32, 2);
    (64, 1); (64, 2);
    (128, 1); (128, 2);
    (256, 1); (256, 2);
    (512, 1); (512, 2);
    (1024, 1) ].

(** [Path / name], and [str] of the result. *)
Definition joinpath (dir name : string) : string := dir +:+ "/" +:+ name.

Section Main.
Context {W : Type}.

(** The external programs. *)
Variable exec : list string → W → gmap string string → spawned * W * gmap string string.

(** [Path(__file__).parent.parent], the directory two levels above the
    script, and Python's [str] of an exception. *)
Variable FRONTEND_DIR : string.
Variable str_exn : exn → string.

(** Lines 12-13. *)
Definition BUILD_DIR : string := joinpath FRONTEND_DIR "build".
Definition ICONSET_DIR : string := joinpath BUILD_DIR "icon.iconset".

(** Lines 106-109 and 113: the names computed for a size entry. *)
Definition actual_size (entry : Z * Z) : Z := entry.1 * entry.2.
Definition suffix (entry : Z * Z) : string :=
  if 1 <? entry.2 then "@" +:+ str_int entry.2 +:+ "x" else "".
Definition filename (entry : Z * Z) : string :=
  "icon_" +:+ str_int entry.1 +:+ "x" +:+ str_int entry.1 +:+ suffix entry +:+ ".png".
Definition filepath (entry : Z * Z) : string := joinpath ICONSET_DIR (filename entry).
Definition svg_path (entry : Z * Z) : string :=
  joinpath ICONSET_DIR ("temp_" +:+ str_int (actual_size entry) +:+ ".svg").
(** Line 133. *)
Definition ql_output (entry : Z * Z) : string :=
  joinpath ICONSET_DIR ("temp_" +:+ str_int (actual_size entry) +:+ ".svg.png").

(** The three converter command lines (lines 121-123, 128-130, 140-143). *)
Definition rsvg_convert_cmd (entry : Z * Z) : list string :=
  [ "rsvg-convert"; "-w"; str_int (actual_size entry); "-h"; str_int (actual_size entry);
    "-o"; filepath entry; svg_path entry ].
Definition qlmanage_cmd (entry : Z * Z) : list string :=
  [ "qlmanage"; "-t"; "-s"; str_int (actual_size entry); "-o"; ICONSET_DIR;
    svg_path entry ].
Definition convert_cmd (entry : Z * Z) : list string :=
  [ "convert"; "-background"; "none"; "-density"; "300";
    svg_path entry; "-resize";
    str_int (actual_size entry) +:+ "x" +:+ str_int (actual_size entry);
    filepath entry ].
(** Lines 165-166. *)
Definition iconutil_cmd : list string :=
  [ "iconutil"; "-c"; "icns"; ICONSET_DIR; "-o"; joinpath BUILD_DIR "icon.icns" ].

(** The clause [except (subprocess.CalledProcessError, FileNotFoundError)]
    of line 125, the clause [except subprocess.CalledProcessError] of line
    169 and the bare [except:] of lines 136 and 145. *)
Definition called_process_or_not_found (e : exn) : bool :=
  match e with
  | CalledProcessError _ _ | FileNotFoundError => true
  | _ => false
  end.
Definition called_process_error (e : exn) : bool :=
  match e with
  | CalledProcessError _ _ => true
  | _ => false
  end.
Definition anything (e : exn) : bool := true.

(** [generate_svg] called from the script: an overflow is raised. *)
Definition call_generate_svg (size : Z) : M W string :=
  match Svg.generate_svg size with
  | Some svg => mret svg
  | None => raise OverflowError
  end.

(** Lines 138-147: the last resort, ImageMagick. *)
Definition try_convert (entry : Z * Z) : M W unit :=
  try_except
    (subprocess_run_check exec (convert_cmd entry))
    anything
    (fun _ =>
       print ("   ❌ Failed to generate " +:+ filename entry);;
       continue).

(** Lines 126-147: the fallback to qlmanage, whose output has another
    name and is renamed when it is there. *)
Definition try_qlmanage (entry : Z * Z) : M W unit :=
  try_except
    (subprocess_run_check exec (qlmanage_cmd entry);;
     present ← exists_ (ql_output entry);
     if present : bool then rename (ql_output entry) (filepath entry) else mret tt)
    anything
    (fun _ =>
       print ("   ⚠️  Could not convert " +:+ filename entry +:+ ", trying alternative...");;
       try_convert entry).

(** Lines 120-147: the chain of the three converters. *)
Definition rasterize (entry : Z * Z) : M W unit :=
  try_except
    (subprocess_run_check exec (rsvg_convert_cmd entry))
    called_process_or_not_found
    (fun _ => try_qlmanage entry).

(** Lines 118-152: conversion, cleanup of the temporary file, success line. *)
Definition rasterize_and_clean_up (entry : Z * Z) : M W unit :=
  rasterize entry;;
  unlink_missing_ok (svg_path entry);;
  print ("   ✓ " +:+ filename entry +:+ " (" +:+ str_int (actual_size entry) +:+ "x"
         +:+ str_int (actual_size entry) +:+ ")").

(** Lines 106-152: the body of the loop. *)
Definition process_entry (entry : Z * Z) : M W unit :=
  svg_content ← call_generate_svg (actual_size entry);
  write_text (svg_path entry) svg_content;;
  rasterize_and_clean_up entry.

(** Lines 96-102. *)
Definition prepare : M W unit :=
  mkdir_parents_exist_ok BUILD_DIR ICONSET_DIR;;
  print "🎨 Generating Lavis icon...";;
  print "   Design: Dark background + Gold L";;
  print ("   Background: " +:+ BACKGROUND_COLOR);;
  print ("   L Color: " +:+ L_COLOR);;
  print "".

(** Lines 154-159. *)
Definition icon_1024 : string := joinpath ICONSET_DIR "icon_1024x1024.png".
Definition copy_main_icon : M W unit :=
  present ← exists_ icon_1024;
  if present : bool then
    copy icon_1024 (joinpath BUILD_DIR "icon_1024.png");;
    print "   ✓ icon_1024.png"
  else mret tt.

(** Lines 161-170. *)
Definition make_icns : M W unit :=
  print "";;
  print "📦 Generating icon.icns...";;
  try_except
    (subprocess_run_check exec iconutil_cmd;;
     print "   ✓ icon.icns")
    called_process_error
    (fun e => print ("   ❌ Failed to generate icon.icns: " +:+ str_exn e)).

(** Lines 172-174. *)
Definition finish : M W unit :=
  print "";;
  print "✅ Icon generation complete!";;
  print ("   Output: " +:+ BUILD_DIR).

Definition process_all : M W unit := for_each SIZES process_entry.

Definition main : M W unit :=
  prepare;;
  process_all;;
  copy_main_icon;;
  make_icns;;
  finish.
End Main.

(** The calls of rsvg-convert in a log of calls, oldest first. *)
Definition rsvg_calls (log : list call) : list (list string) :=
  filter (λ cmd, head cmd = Some "rsvg-convert") (map fst log).

End Driver.

(** ** Stand-ins for the external programs, for concrete runs *)

Module Stub.
Import Os Driver.

(** Where each program leaves its result: [rsvg-convert] and [iconutil] at
    the path after [-o], [qlmanage] next to its input with [.png] appended,
    [convert] at its last argument. *)
Definition output_of (cmd : list string) : option string :=
  match cmd with
  | [ "rsvg-convert"; _; _; _; _; _; out; _ ] => Some out
  | [ "qlmanage"; _; _; _; _; _; svg ] => Some (svg +:+ ".png")
  | [ "convert"; _; _; _; _; _; _; _; out ] => Some out
  | [ "iconutil"; _; _; _; _; out ] => Some out
  | _ => None
  end.

(** A world without state in which [outcome] says how each command ends; a
    command that exits with status 0 writes its result unless [silent]. *)
Definition exec (outcome : list string → spawned) (silent : list string → bool)
    (cmd : list string) (w : unit) (fs : gmap string string)
    : spawned * unit * gmap string string :=
  let r := outcome cmd in
  (r, w,
   if failed r || silent cmd then fs
   else match output_of cmd with
        | Some p => <[p := "bitmap of " +:+ default "" (head cmd)]> fs
        | None => fs
        end).

Definition program (cmd : list string) : string := default "" (head cmd).

Definition never (cmd : list string) : bool := false.

(** Every program works. *)
Definition all_ok (cmd : list string) : spawned := Exited 0.
(** No converter is installed and [iconutil] works. *)
Definition no_converter (cmd : list string) : spawned :=
  if String.eqb (program cmd) "iconutil" then Exited 0
  else if String.eqb (program cmd) "convert" then Exited 1
  else NotFound.
(** Every program exits with status 1. *)
Definition all_exit_1 (cmd : list string) : spawned := Exited 1.
(** The converters work and [iconutil] is not installed. *)
Definition no_iconutil (cmd : list string) : spawned :=
  if String.eqb (program cmd) "iconutil" then NotFound else Exited 0.
(** The converters work and [iconutil] exits with status 1. *)
Definition iconutil_exit_1 (cmd : list string) : spawned :=
  if String.eqb (program cmd) "iconutil" then Exited 1 else Exited 0.
(** Only [qlmanage] is there. *)
Definition only_qlmanage (cmd : list string) : spawned :=
  if String.eqb (program cmd) "qlmanage" then Exited 0
  else if String.eqb (program cmd) "iconutil" then Exited 0
  else NotFound.
(** The three converters fail for the pixel size 32 only. *)
Definition fail_at_32 (cmd : list string) : spawned :=
  match cmd with
  | [ "rsvg-convert"; _; "32"; _; _; _; _; _ ] => Exited 1
  | [ "qlmanage"; _; _; "32"; _; _; _ ] => Exited 1
  | [ "convert"; _; _; _; _; _; _; "32x32"; _ ] => Exited 1
  | _ => Exited 0
  end.

Definition str_exn (e : exn) : string :=
  match e with
  | CalledProcessError n cmd =>
      "Command " +:+ program cmd +:+ " returned non-zero exit status " +:+ Py.str_int n +:+ "."
  | FileNotFoundError => "No such file or directory"
  | OSError => "OSError"
  | OverflowError => "int too large to convert to float"
  end.

Definition FRONTEND_DIR : string := "/lavis/frontend".

Definition initial : state unit := State ∅ [] [] tt.

Definition run (outcome : list string → spawned) (silent : list string → bool)
    : completion unit * state unit :=
  main (exec outcome silent) FRONTEND_DIR str_exn initial.

End Stub.

(** * Facts about the text helpers *)

Module TextFacts.
Import Text.

Lemma occurs_app c a b : occurs c (a +:+ b) = occurs c a || occurs c b.
Proof.
  induction a as [|d a IH]; simpl; [done|].
  rewrite IH. by destruct (Ascii.eqb c d).
Qed.

(** A pattern cannot start inside a text that lacks its first character. *)
Lemma after_skip c p a b :
  occurs c a = false → after (String c p) (a +:+ b) = after (String c p) b.
Proof.
  induction a as [|d a IH]; intros H; [done|].
  simpl in H. apply orb_false_elim in H as [Hd Ha].
  change (String d a +:+ b) with (String d (a +:+ b)).
  simpl. rewrite Hd. by apply IH.
Qed.

Lemma drop_prefix_nil s : drop_prefix EmptyString s = Some s.
Proof. by destruct s. Qed.

(** Nor can it go on into a non-empty text that lacks its next character. *)
Lemma drop_prefix_mismatch c p a b :
  a ≠ EmptyString → occurs c a = false → drop_prefix (String c p) (a +:+ b) = None.
Proof.
  destruct a as [|d a]; [done|]. intros _ H.
  simpl in H. apply orb_false_elim in H as [Hd _].
  simpl. by rewrite Hd.
Qed.

Lemma upto_skip c a b :
  occurs c a = false → upto c (a +:+ b) = option_map (String.append a) (upto c b).
Proof.
  induction a as [|d a IH]; intros H; simpl.
  - by destruct (upto c b).
  - simpl in H. apply orb_false_elim in H as [Hd Ha].
    rewrite Hd, (IH Ha). by destruct (upto c b).
Qed.

Lemma upto_found c a b :
  occurs c a = false → upto c (a +:+ String c b) = Some a.
Proof.
  intros H. rewrite (upto_skip _ _ _ H). simpl.
  rewrite Ascii.eqb_refl. simpl. f_equal.
  clear H. induction a as [|d a IH]; simpl; [done|]. by rewrite IH.
Qed.

Lemma over_app al a b : over al (a +:+ b) = over al a && over al b.
Proof.
  induction a as [|d a IH]; simpl; [done|]. rewrite IH. by rewrite andb_assoc.
Qed.

Lemma over_substring al s : over al s = true → ∀ i n, over al (substring i n s) = true.
Proof.
  induction s as [|d s IH]; intros H i n.
  - by destruct i, n.
  - simpl in H. apply andb_prop in H as [Hd Hs].
    destruct i as [|i]; destruct n as [|n]; simpl; auto.
    by rewrite Hd, (IH Hs).
Qed.

Lemma over_repeat_char al c n : occurs c al = true → over al (repeat_char c n) = true.
Proof. intros H. induction n as [|n IH]; simpl; [done|]. by rewrite H, IH. Qed.

Lemma occurs_over al s c : over al s = true → occurs c al = false → occurs c s = false.
Proof.
  induction s as [|d s IH]; intros H Hc; simpl; [done|].
  simpl in H. apply andb_prop in H as [Hd Hs].
  rewrite (IH Hs Hc), orb_false_r.
  destruct (Ascii.eqb_spec c d) as [->|]; [congruence|done].
Qed.

(** [rstrip] removes a blank tail and nothing else. *)
Lemma rstrip_blank ws : blank ws = true → rstrip ws = EmptyString.
Proof.
  induction ws as [|c ws IH]; simpl; [done|]. intros H.
  apply andb_prop in H as [Hc Hws]. by rewrite (IH Hws), Hc.
Qed.

Lemma rstrip_solid a ws :
  a ≠ EmptyString → (∀ c, is_space c = true → occurs c a = false) →
  blank ws = true → rstrip (a +:+ ws) = a.
Proof.
  intros Hne Ha Hws. induction a as [|c a IH]; [done|].
  assert (Hc : is_space c = false).
  { destruct (is_space c) eqn:E; [|done].
    specialize (Ha c E). simpl in Ha. by rewrite Ascii.eqb_refl in Ha. }
  assert (Ha' : ∀ c', is_space c' = true → occurs c' a = false).
  { intros c' E. specialize (Ha c' E). simpl in Ha. by apply orb_false_elim in Ha as [_ ?]. }
  change (String c a +:+ ws) with (String c (a +:+ ws)). simpl.
  destruct a as [|d a].
  - simpl. rewrite (rstrip_blank _ Hws). by rewrite Hc.
  - rewrite IH; [done|done|done].
Qed.

Lemma rstrip_app a b :
  rstrip b ≠ EmptyString → rstrip (a +:+ b) = a +:+ rstrip b.
Proof.
  intros Hb. induction a as [|c a IH]; [done|].
  change (String c a +:+ b) with (String c (a +:+ b)). simpl. rewrite IH.
  destruct (a +:+ rstrip b) eqn:E; [|done].
  destruct a; simpl in E; [done|discriminate].
Qed.

Lemma app_nil_r (a : string) : a +:+ EmptyString = a.
Proof. induction a as [|d a IH]; simpl; [done|]. by rewrite IH. Qed.

Lemma app_assoc (a b c : string) : (a +:+ b) +:+ c = a +:+ (b +:+ c).
Proof. induction a as [|d a IH]; simpl; [done|]. by rewrite IH. Qed.

Lemma app_inj_l (a b c : string) : a +:+ b = a +:+ c → b = c.
Proof. induction a as [|d a IH]; simpl; [done|]. intros [= H]. by apply IH. Qed.

Lemma stops_short_sound al pat s a b :
  a ≠ EmptyString → over al a = true → stops_short al pat s = true →
  drop_prefix pat (s +:+ (a +:+ b)) = None.
Proof.
  intros Hne Ha. revert pat. induction s as [|c s IH]; intros [|p pat] H; try done.
  - simpl in H. apply negb_true_iff in H.
    change (EmptyString +:+ (a +:+ b)) with (a +:+ b).
    apply drop_prefix_mismatch; [done|by apply (occurs_over al)].
  - simpl in H. simpl. destruct (Ascii.eqb p c); [by apply IH|done].
Qed.

(** A literal chunk in which the pattern cannot start is passed over. *)
Lemma after_chunk al pat s a b :
  a ≠ EmptyString → over al a = true → free_of al pat s = true →
  after pat (s +:+ (a +:+ b)) = after pat (a +:+ b).
Proof.
  intros Hne Ha. induction s as [|c s IH]; intros H; [done|].
  simpl in H. apply andb_prop in H as [H1 H2].
  change (String c s +:+ ?x) with (String c (s +:+ x)).
  cbn [after]. change (String c (s +:+ ?x)) with (String c s +:+ x).
  rewrite (stops_short_sound al pat (String c s) a b Hne Ha H1). by apply IH.
Qed.

Lemma drop_prefix_app pat s t b :
  drop_prefix pat s = Some t → drop_prefix pat (s +:+ b) = Some (t +:+ b).
Proof.
  revert pat. induction s as [|c s IH]; intros [|p pat] H; simpl in *; try done.
  - injection H as <-. apply drop_prefix_nil.
  - by injection H as <-.
  - destruct (Ascii.eqb p c); [by apply IH|done].
Qed.

Lemma drop_prefix_length pat s t :
  drop_prefix pat s = Some t → (String.length pat ≤ String.length s)%nat.
Proof.
  revert pat. induction s as [|c s IH]; intros [|p pat] H; simpl in *; try done; try lia.
  destruct (Ascii.eqb p c); [|done]. apply IH in H. lia.
Qed.

Lemma drop_prefix_short pat s b :
  drop_prefix pat s = None → (String.length pat ≤ String.length s)%nat →
  drop_prefix pat (s +:+ b) = None.
Proof.
  revert pat. induction s as [|c s IH]; intros [|p pat] H Hl; simpl in *; try done; try lia.
  destruct (Ascii.eqb p c); [apply IH; [done|lia]|done].
Qed.

Lemma after_length pat s t :
  after pat s = Some t → (String.length pat ≤ String.length s)%nat.
Proof.
  induction s as [|c s IH]; cbn [after]; intros H.
  - destruct (drop_prefix pat EmptyString) eqn:E; [|done].
    by apply drop_prefix_length in E.
  - destruct (drop_prefix pat (String c s)) eqn:E.
    + by apply drop_prefix_length in E.
    + apply IH in H. simpl. lia.
Qed.

Lemma after_cons pat c s :
  after pat (String c s) =
  match drop_prefix pat (String c s) with
  | Some rest => Some rest
  | None => after pat s
  end.
Proof. reflexivity. Qed.

(** The first occurrence inside a chunk stays the first when text follows. *)
Lemma after_found pat s t b :
  after pat s = Some t → after pat (s +:+ b) = Some (t +:+ b).
Proof.
  revert t. induction s as [|c s IH]; intros t H.
  - cbn [after] in H. destruct (drop_prefix pat EmptyString) eqn:E; [|done].
    destruct pat; [|done]. simpl in E. simplify_eq.
    change (EmptyString +:+ b) with b. destruct b; by simpl.
  - rewrite after_cons in H.
    change (String c s +:+ b) with (String c (s +:+ b)). rewrite after_cons.
    change (String c (s +:+ b)) with (String c s +:+ b).
    destruct (drop_prefix pat (String c s)) eqn:E.
    + simplify_eq. by rewrite (drop_prefix_app _ _ _ b E).
    + pose proof (after_length _ _ _ H) as Hl.
      rewrite (drop_prefix_short pat (String c s) b E); [by apply IH|simpl; lia].
Qed.

Lemma upto_found_in c s t b : upto c s = Some t → upto c (s +:+ b) = Some t.
Proof.
  revert t. induction s as [|d s IH]; intros t H; [done|].
  simpl in *. destruct (Ascii.eqb c d); [done|].
  destruct (upto c s) as [u|]; [|done]. by rewrite (IH u).
Qed.

End TextFacts.

(** * Facts about the formatting of numbers *)

Module PyFacts.
Import Text Py TextFacts.

Lemma digit_char_numeral al n :
  over al "0123456789" = true → occurs (digit_char (n mod 10)) al = true.
Proof.
  intros H. unfold digit_char.
  assert (Hn : (Z.to_nat (n mod 10) < 10)%nat) by (pose proof (Z.mod_pos_bound n 10); lia).
  simpl in H. repeat (apply andb_prop in H as [? H]).
  generalize dependent (Z.to_nat (n mod 10)). intros k Hk.
  do 10 (destruct k as [|k]; [vm_compute ascii_of_nat; assumption|]). lia.
Qed.

Lemma digits_acc_over al fuel : ∀ n acc,
  over al "0123456789" = true → over al acc = true → over al (digits_acc fuel n acc) = true.
Proof.
  induction fuel as [|fuel IH]; intros n acc Hd Hacc; simpl; [done|].
  assert (over al (String (digit_char (n mod 10)) acc) = true) as H'.
  { simpl. by rewrite (digit_char_numeral al n Hd), Hacc. }
  destruct (n <? 10); [done|]. by apply IH.
Qed.

Lemma digits_acc_nonempty fuel : ∀ n c acc, digits_acc fuel n (String c acc) ≠ EmptyString.
Proof.
  induction fuel as [|fuel IH]; intros n c acc; simpl; [done|].
  destruct (n <? 10); [done|]. apply IH.
Qed.

Lemma digits_over al n : over al "0123456789" = true → over al (digits n) = true.
Proof. intros H. by apply digits_acc_over. Qed.

Lemma digits_nonempty n : digits n ≠ EmptyString.
Proof.
  unfold digits. simpl. destruct (n <? 10); [done|]. apply digits_acc_nonempty.
Qed.

Lemma str_int_numeric n : over numerals (str_int n) = true.
Proof.
  unfold str_int. destruct (n <? 0); [simpl|]; by rewrite digits_over.
Qed.

Lemma str_int_nonempty n : str_int n ≠ EmptyString.
Proof. unfold str_int. destruct (n <? 0); [done|]. apply digits_nonempty. Qed.

(** A natural number prints as digits only. *)
Lemma str_int_digits n : 0 ≤ n → over "0123456789" (str_int n) = true.
Proof.
  intros H. unfold str_int. destruct (Z.ltb_spec n 0); [lia|]. by apply digits_over.
Qed.

Lemma exponent_text_numeric x : over numerals (exponent_text x) = true.
Proof.
  unfold exponent_text. cbn [over].
  apply andb_true_intro. split; [by destruct (x <? 0)|].
  destruct (Z.abs x <? 10); [cbn [over]|]; by rewrite digits_over.
Qed.

Lemma layout_numeric ds decpt : over numerals ds = true → over numerals (layout ds decpt) = true.
Proof.
  intros H. unfold layout.
  destruct ((decpt <=? -4) || (16 <? decpt)).
  - destruct ds as [|c [|d ds]]; [done| |].
    + cbn [over] in *. apply andb_prop in H as [-> _]. by rewrite exponent_text_numeric.
    + cbn [over] in H. apply andb_prop in H as [Hc H].
      cbn [over]. rewrite Hc, (over_app numerals (String d ds)).
      cbn [over]. by rewrite H, exponent_text_numeric.
  - destruct (decpt <=? 0); [|destruct (decpt <? _)].
    + rewrite !over_app, H, over_repeat_char; done.
    + rewrite !over_app, !over_substring; done.
    + rewrite !over_app, H, over_repeat_char; done.
Qed.

Lemma layout_nonempty ds decpt : ds ≠ EmptyString → layout ds decpt ≠ EmptyString.
Proof.
  intros H. unfold layout.
  destruct ((decpt <=? -4) || (16 <? decpt)).
  - by destruct ds as [|c [|d ds]].
  - destruct (decpt <=? 0); [done|destruct (decpt <? _)].
    + destruct (substring 0 (Z.to_nat decpt) ds); done.
    + destruct ds; done.
Qed.

Lemma repr_float_numeric x : over numerals (repr_float x) = true.
Proof.
  destruct x as [[]|[]| |s m e]; try done.
  unfold repr_float. destruct (shortest (Z.pos m) e) as [d k].
  assert (over numerals (layout (digits d) (k + Z.of_nat (String.length (digits d)))) = true) as H
    by (apply layout_numeric; by apply digits_over).
  destruct s; [cbn [over]|]; by rewrite H.
Qed.

Lemma repr_float_nonempty x : repr_float x ≠ EmptyString.
Proof.
  destruct x as [[]|[]| |s m e]; try done.
  unfold repr_float. destruct (shortest (Z.pos m) e) as [d k].
  destruct s; [done|]. apply layout_nonempty, digits_nonempty.
Qed.

Lemma numeric_str_int n : numeric (str_int n).
Proof. split; [apply str_int_nonempty|apply str_int_numeric]. Qed.

Lemma numeric_repr_float x : numeric (repr_float x).
Proof. split; [apply repr_float_nonempty|apply repr_float_numeric]. Qed.

Lemma numeric_lacks s c : numeric s → occurs c numerals = false → occurs c s = false.
Proof. intros [_ H]. by apply occurs_over. Qed.

End PyFacts.

(** * Facts about the descriptor *)

Module SvgFacts.
Import Text Py Svg TextFacts PyFacts.

Lemma rstrip_cons c r : rstrip r ≠ EmptyString → rstrip (String c r) = String c (rstrip r).
Proof. intros H. simpl. by destruct (rstrip r). Qed.

Lemma rstrip_cons_ne c r : rstrip r ≠ EmptyString → rstrip (String c r) ≠ EmptyString.
Proof. intros H. by rewrite rstrip_cons. Qed.

Lemma rstrip_app_ne a b : rstrip b ≠ EmptyString → rstrip (a +:+ b) ≠ EmptyString.
Proof. intros H. rewrite rstrip_app by done. by destruct a. Qed.

Lemma lstrip_blank ws c r :
  blank ws = true → is_space c = false → lstrip (ws +:+ String c r) = String c r.
Proof.
  intros Hws Hc. induction ws as [|d ws IH]; simpl.
  - by rewrite Hc.
  - simpl in Hws. apply andb_prop in Hws as [-> Hws]. by apply IH.
Qed.

Lemma numeric_solid s : numeric s → ∀ c, is_space c = true → occurs c s = false.
Proof.
  intros [_ H] c Hc. apply (occurs_over _ _ _ H).
  destruct (occurs c numerals) eqn:E; [|done].
  cbn [occurs numerals] in E.
  repeat (apply orb_prop in E as [E|E]; [apply Ascii.eqb_eq in E as ->; vm_compute in Hc; discriminate|]).
  discriminate.
Qed.

Lemma numeric_nonempty s : numeric s → s ≠ EmptyString.
Proof. by intros [? _]. Qed.

Lemma numeric_over s : numeric s → over numerals s = true.
Proof. by intros [_ ?]. Qed.

Ltac rstrip_ne E Hne :=
  first [ rewrite E; exact Hne
        | apply rstrip_cons_ne; rstrip_ne E Hne
        | apply rstrip_app_ne; rstrip_ne E Hne ].

(** [l_path.strip()]: the blank lines around the three path commands go,
    the numbers stay. *)
Lemma strip_path r1 r2 r3 r4 r5 r6 :
  numeric r6 →
  strip (concat_all ["
    M "; r1; " "; r2; "
    L "; r3; " "; r4; "
    L "; r5; " "; r6; "
    "]) =
  concat_all ["M "; r1; " "; r2; "
    L "; r3; " "; r4; "
    L "; r5; " "; r6].
Proof.
  intros H6. unfold strip.
  assert (rstrip (r6 +:+ "
    ") = r6) as E.
  { apply rstrip_solid; [apply H6|by apply numeric_solid|done]. }
  assert (r6 ≠ EmptyString) as Hne by apply H6.
  cbn [concat_all].
  change ("
    M " +:+ ?x) with ("
    " +:+ String "M" (" " +:+ x)).
  rewrite lstrip_blank by done.
  cbn [String.append].
  repeat first [ rewrite rstrip_cons by rstrip_ne E Hne
               | rewrite rstrip_app by rstrip_ne E Hne ].
  rewrite E. by rewrite app_nil_r.
Qed.

(** The text of a descriptor, with its numbers named. *)
Ltac name_numbers :=
  repeat match goal with
  | |- context [str_int ?t] =>
      pose proof (numeric_str_int t); generalize dependent (str_int t); intros
  | |- context [repr_float ?t] =>
      pose proof (numeric_repr_float t); generalize dependent (repr_float t); intros
  end.

Ltac open_descriptor f :=
  unfold generate_svg, int_times;
  match goal with
  | |- context [float_of_int ?n] => destruct (float_of_int n) as [f|]; [|discriminate]
  end;
  cbn [mbind option_bind]; rewrite strip_path by apply numeric_repr_float;
  let H := fresh in intros H; apply (inj Some) in H; rewrite <- H; clear H;
  cbn [concat_all]; rewrite ?app_assoc; change (EmptyString +:+ ?x) with x.

Lemma after_join pat s1 s2 r :
  after pat (s1 +:+ (s2 +:+ r)) = after pat ((s1 +:+ s2) +:+ r).
Proof. by rewrite app_assoc. Qed.

(** Read an attribute off a descriptor laid out as chunks and numbers:
    pass over the numbers and the chunks in which the name cannot start,
    stop in the chunk that holds it, then read up to the closing quote. *)
Ltac pass_over :=
  match goal with
  | |- context [after (String ?c0 ?p) (?a +:+ ?b)] =>
      match goal with
      | Ha : numeric a |- _ =>
          rewrite (after_skip c0 p a b (numeric_lacks a c0 Ha eq_refl))
      end
  | |- context [after ?p (?c +:+ (?a +:+ ?b))] =>
      match goal with
      | Ha : numeric a |- _ =>
          rewrite (after_chunk numerals p c a b (numeric_nonempty a Ha) (numeric_over a Ha))
            by (vm_compute; reflexivity)
      end
  | |- context [after ?p (?c1 +:+ (?c2 +:+ ?r))] =>
      tryif is_var c2 then fail else
        (rewrite (after_join p c1 c2 r);
         let c := eval vm_compute in (c1 +:+ c2) in change (c1 +:+ c2) with c)
  end.

Ltac read_value :=
  match goal with
  | |- context [upto ?q (?a +:+ ?b)] =>
      match goal with
      | Ha : numeric a |- _ =>
          rewrite (upto_skip q a b (numeric_lacks a q Ha eq_refl))
      end
  | |- context [upto ?q (?c +:+ ?b)] =>
      tryif is_var c then fail else
        first [ erewrite (upto_found_in q c) by (vm_compute; reflexivity)
              | rewrite (upto_skip q c b) by (vm_compute; reflexivity) ]
  end.

Ltac search :=
  unfold attribute;
  match goal with
  | |- context [after ?p _] => let p' := eval vm_compute in p in change p with p'
  end;
  repeat pass_over;
  match goal with
  | |- context [after ?p (?c +:+ ?b)] =>
      erewrite (after_found p c) by (vm_compute; reflexivity)
  end;
  cbv beta iota;
  repeat read_value;
  cbn [option_map]; rewrite ?app_nil_r; reflexivity.

(** The generator answers exactly when the size converts to a double. *)
Lemma generate_svg_defined size : is_Some (generate_svg size) ↔ is_Some (float_of_int size).
Proof.
  unfold generate_svg, int_times.
  destruct (float_of_int size) as [f|]; cbn [mbind option_bind]; split; intros [x H]; by eauto.
Qed.

(** The [svg] element declares the size it was asked for. *)
Lemma generate_svg_dimensions size svg :
  generate_svg size = Some svg →
  attribute "width" svg = Some (str_int size) ∧
  attribute "height" svg = Some (str_int size) ∧
  attribute "viewBox" svg = Some ("0 0 " +:+ str_int size +:+ " " +:+ str_int size).
Proof.
  open_descriptor f. name_numbers. split; [|split].
  - search.
  - search.
  - search.
Qed.

(** Claim C7.  Whenever the generator returns a descriptor for [size], the
    numbers in it are the binary64 products of [size] with the design
    ratios, printed by [repr]: [rx] and [ry] hold 0.22 x size, [stroke-width]
    holds 0.12 x size, and the glyph path starts at (padding + stroke/2,
    padding), goes down to padding + height - stroke/2 and right to
    padding + width, with padding 0.22 x size, width 0.45 x size and height
    0.56 x size.  For size 16 the viewBox is [0 0 16 16], the corner radius
    3.52 and the stroke width 1.92. *)
Theorem descriptor_proportions (size : Z) (svg : string) :
  generate_svg size = Some svg →
  (∃ fsize : float,
     float_of_int size = Some fsize ∧
     let corner_radius := fmul fsize (literal 22 100) in
     let padding := fmul fsize (literal 22 100) in
     let l_width := fmul fsize (literal 45 100) in
     let l_height := fmul fsize (literal 56 100) in
     let stroke_width := fmul fsize (literal 12 100) in
     let half_stroke := fdiv stroke_width (binary_normalize prec emax 2 0 false) in
     attribute "rx" svg = Some (repr_float corner_radius) ∧
     attribute "ry" svg = Some (repr_float corner_radius) ∧
     attribute "stroke-width" svg = Some (repr_float stroke_width) ∧
     attribute "d" svg =
       Some (concat_all
         ["M "; repr_float (fadd padding half_stroke); " "; repr_float padding; "
    L "; repr_float (fadd padding half_stroke); " ";
         repr_float (fsub (fadd padding l_height) half_stroke); "
    L "; repr_float (fadd padding l_width); " ";
         repr_float (fsub (fadd padding l_height) half_stroke)])) ∧
  (size = 16 →
     attribute "viewBox" svg = Some "0 0 16 16" ∧
     attribute "rx" svg = Some "3.52" ∧
     attribute "stroke-width" svg = Some "1.92").
Proof.
  intros Hsvg. split.
  - revert Hsvg. unfold generate_svg, int_times.
    destruct (float_of_int size) as [f|]; [|discriminate].
    cbn [mbind option_bind]. rewrite strip_path by apply numeric_repr_float.
    intros H. apply (inj Some) in H. rewrite <- H. clear H.
    exists f. split; [done|].
    change (literal 22 100) with lit_0_22. change (literal 45 100) with lit_0_45.
    change (literal 56 100) with lit_0_56. change (literal 12 100) with lit_0_12.
    change (binary_normalize prec emax 2 0 false) with lit_2.
    change CORNER_RADIUS_RATIO with lit_0_22. fold (half (fmul f lit_0_12)).
    cbv zeta. cbn [concat_all]. rewrite ?app_assoc. change (EmptyString +:+ ?x) with x.
    name_numbers. split; [|split; [|split]].
    + search.
    + search.
    + search.
    + search.
  - intros ->. vm_compute in Hsvg. injection Hsvg as <-.
    repeat split; vm_compute; reflexivity.
Qed.

Lemma descriptor_proportions_witness :
  ∃ svg, generate_svg 16 = Some svg ∧
    attribute "viewBox" svg = Some "0 0 16 16" ∧
    attribute "rx" svg = Some "3.52" ∧
    attribute "stroke-width" svg = Some "1.92".
Proof.
  destruct (generate_svg 16) as [svg|] eqn:E; [|vm_compute in E; discriminate].
  exists svg. split; [reflexivity|].
  exact (proj2 (descriptor_proportions 16 svg E) eq_refl).
Defined.

End SvgFacts.

(** * Facts about the driver *)

Module DriverFacts.
Import Text Py Os Driver.

Ltac unfold_script :=
  unfold process_entry, call_generate_svg, rasterize_and_clean_up, rasterize,
    try_qlmanage, try_convert, copy_main_icon, make_icns, finish,
    subprocess_run_check, try_except, exists_, rename, copy, unlink_missing_ok,
    print, write_text, continue, raise, set_files,
    mbind, mret, script_bind, script_ret, bind, ret in *.

(** Follow the script through every way the external programs can end. *)
Ltac crunch :=
  repeat (cbn [fst snd calls files stdout world failed
               called_process_or_not_found called_process_error anything] in *;
          match goal with
          | |- context [match ?x with (_, _) => _ end] =>
              match x with
              | context [Svg.generate_svg ?n] => fail 1
              | _ ?cmd ?w ?f =>
                  let E := fresh "E" in destruct x as [[[[|?|?]| |] ?] ?] eqn:E
              end
          | |- context [bool_decide ?P] => destruct (bool_decide P)
          | |- context [match ?m !! ?k with Some _ => _ | None => _ end] =>
              destruct (m !! k) eqn:?
          end);
  cbn [fst snd calls files stdout world failed
       called_process_or_not_found called_process_error anything] in *.

(** Compare two logs of calls that start alike. *)
Ltac same_calls H :=
  rewrite <- ?List.app_assoc in H; apply app_inv_head in H; simplify_eq/=.

Section Facts.
Context {W : Type}.
Variable exec : list string → W → gmap string string → spawned * W * gmap string string.
Variable FRONTEND_DIR : string.
Variable str_exn : exn → string.

Lemma svg_path_not_filepath entry : svg_path FRONTEND_DIR entry ≠ filepath FRONTEND_DIR entry.
Proof.
  unfold svg_path, filepath, joinpath. intros H.
  apply TextFacts.app_inj_l in H. discriminate H.
Qed.

(** Claim C3.  When the first converter, rsvg-convert, is run for a size
    entry and exits with status 0, it is the only program run for that
    entry: the calls the entry adds to the log are that one call, so neither
    qlmanage nor convert is invoked. *)
Theorem first_converter_success_ends_chain (entry : Z * Z) (s : state W) (tail : list call) :
  calls (process_entry exec FRONTEND_DIR entry s).2 =
    calls s ++ (rsvg_convert_cmd FRONTEND_DIR entry, Exited 0) :: tail →
  tail = [].
Proof.
  unfold_script.
  destruct (Svg.generate_svg (actual_size entry)) as [svg|]; crunch; intros H.
  all: try (same_calls H; done).
  apply (f_equal length) in H. rewrite length_app in H. simpl in H. lia.
Qed.

(** What [quiet_on_failure] gives along one run. *)
Lemma quiet_run path cmd w f r w' f' :
  quiet_on_failure exec path → exec cmd w f = (r, w', f') → failed r = true →
  f' !! path = f !! path.
Proof. intros Hq E Hr. specialize (Hq cmd w f). rewrite E in Hq. by apply Hq. Qed.

(** The three converters all failing: the entry ends by [continue] after
    the two messages, and the files are those the last program left. *)
Lemma all_fail_core (entry : Z * Z) (s : state W) (r1 r2 r3 : spawned) :
  calls (process_entry exec FRONTEND_DIR entry s).2 =
    calls s ++ [ (rsvg_convert_cmd FRONTEND_DIR entry, r1);
                 (qlmanage_cmd FRONTEND_DIR entry, r2);
                 (convert_cmd FRONTEND_DIR entry, r3) ] →
  failed r1 = true → failed r2 = true → failed r3 = true →
  (process_entry exec FRONTEND_DIR entry s).1 = Continue ∧
  stdout (process_entry exec FRONTEND_DIR entry s).2 =
    stdout s ++ [ "   ⚠️  Could not convert " +:+ filename entry +:+ ", trying alternative...";
                  "   ❌ Failed to generate " +:+ filename entry ] ∧
  ∃ svg, Svg.generate_svg (actual_size entry) = Some svg ∧
    ∀ path, quiet_on_failure exec path →
      files (process_entry exec FRONTEND_DIR entry s).2 !! path =
      <[svg_path FRONTEND_DIR entry := svg]> (files s) !! path.
Proof.
  unfold_script.
  destruct (Svg.generate_svg (actual_size entry)) as [svg|]; crunch; intros H F1 F2 F3.
  all: try (same_calls H; done).
  all: try (apply (f_equal length) in H; rewrite length_app in H; simpl in H; lia).
  all: split; [done|]; split; [by rewrite <- List.app_assoc|].
  all: exists svg; split; [done|]; intros path Hq.
  all: repeat match goal with
       | E : exec _ _ _ = _ |- _ =>
           rewrite (quiet_run path _ _ _ _ _ _ Hq E) by done; clear E
       end; done.
Qed.


(** Claim C1, as the code has it.  When the three converters are run for a
    size entry and all three fail, the entry ends by [continue] before the
    cleanup: unless one of the failing programs removed it, the temporary
    descriptor is still on disk, with the generated text, when the loop
    goes on to the next entry. *)
Theorem temporary_file_left_after_failure (entry : Z * Z) (rest : list (Z * Z))
    (s : state W) (r1 r2 r3 : spawned) :
  calls (process_entry exec FRONTEND_DIR entry s).2 =
    calls s ++ [ (rsvg_convert_cmd FRONTEND_DIR entry, r1);
                 (qlmanage_cmd FRONTEND_DIR entry, r2);
                 (convert_cmd FRONTEND_DIR entry, r3) ] →
  failed r1 = true → failed r2 = true → failed r3 = true →
  quiet_on_failure exec (svg_path FRONTEND_DIR entry) →
  is_Some (files (process_entry exec FRONTEND_DIR entry s).2 !! svg_path FRONTEND_DIR entry) ∧
  files (process_entry exec FRONTEND_DIR entry s).2 !! svg_path FRONTEND_DIR entry =
    Svg.generate_svg (actual_size entry) ∧
  for_each (entry :: rest) (process_entry exec FRONTEND_DIR) s =
    for_each rest (process_entry exec FRONTEND_DIR) (process_entry exec FRONTEND_DIR entry s).2.
Proof.
  intros H F1 F2 F3 Hq.
  destruct (all_fail_core entry s r1 r2 r3 H F1 F2 F3) as (Hc & _ & svg & Hsvg & Hfiles).
  rewrite (Hfiles _ Hq), lookup_insert_eq, Hsvg. repeat split; [by eexists|].
  cbn [for_each]. destruct (process_entry exec FRONTEND_DIR entry s) as [c s'].
  simpl in Hc. by subst c.
Qed.

(** The part of claim C1 that holds: an entry that ends normally has
    removed its temporary descriptor. *)
Lemma temporary_file_removed_on_success (entry : Z * Z) (s : state W) :
  (process_entry exec FRONTEND_DIR entry s).1 = Normal tt →
  files (process_entry exec FRONTEND_DIR entry s).2 !! svg_path FRONTEND_DIR entry = None.
Proof.
  unfold_script.
  destruct (Svg.generate_svg (actual_size entry)) as [svg|]; crunch; intros H; try done.
  all: apply lookup_delete_eq.
Qed.

(** Claim C5.  When rsvg-convert fails in a way the script catches,
    qlmanage exits with status 0 and the file it should have written is not
    there, the entry runs no third program, leaves the files as qlmanage
    left them but for the removed temporary descriptor (so it creates no
    target bitmap), and prints the success line all the same. *)
Theorem qlmanage_success_without_output (entry : Z * Z) (s : state W) (svg : string)
    (r1 : spawned) (w1 w2 : W) (f1 f2 : gmap string string) :
  Svg.generate_svg (actual_size entry) = Some svg →
  exec (rsvg_convert_cmd FRONTEND_DIR entry) (world s)
       (<[svg_path FRONTEND_DIR entry := svg]> (files s)) = (r1, w1, f1) →
  r1 = NotFound ∨ (∃ n, n ≠ 0 ∧ r1 = Exited n) →
  exec (qlmanage_cmd FRONTEND_DIR entry) w1 f1 = (Exited 0, w2, f2) →
  f2 !! ql_output FRONTEND_DIR entry = None →
  process_entry exec FRONTEND_DIR entry s =
    (Normal tt,
     State (delete (svg_path FRONTEND_DIR entry) f2)
           (stdout s ++ [ "   ✓ " +:+ filename entry +:+ " (" +:+ str_int (actual_size entry)
                          +:+ "x" +:+ str_int (actual_size entry) +:+ ")" ])
           (calls s ++ [ (rsvg_convert_cmd FRONTEND_DIR entry, r1);
                         (qlmanage_cmd FRONTEND_DIR entry, Exited 0) ])
           w2) ∧
  (f2 !! filepath FRONTEND_DIR entry = None →
   files (process_entry exec FRONTEND_DIR entry s).2 !! filepath FRONTEND_DIR entry = None).
Proof.
  intros Hsvg E1 Hr1 E2 Hout.
  assert (process_entry exec FRONTEND_DIR entry s =
    (Normal tt,
     State (delete (svg_path FRONTEND_DIR entry) f2)
           (stdout s ++ [ "   ✓ " +:+ filename entry +:+ " (" +:+ str_int (actual_size entry)
                          +:+ "x" +:+ str_int (actual_size entry) +:+ ")" ])
           (calls s ++ [ (rsvg_convert_cmd FRONTEND_DIR entry, r1);
                         (qlmanage_cmd FRONTEND_DIR entry, Exited 0) ])
           w2)) as Hrun.
  { unfold_script. rewrite Hsvg. cbn [files world stdout calls]. rewrite E1.
    destruct Hr1 as [->|(n & Hn & ->)]; [|destruct n as [|p|p]; [done| |]].
    all: cbn [fst snd calls files stdout world called_process_or_not_found].
    all: rewrite E2; cbn [fst snd calls files stdout world].
    all: rewrite Hout, bool_decide_eq_false_2 by (by intros [? ?]).
    all: by rewrite <- List.app_assoc. }
  split; [done|].
  intros Hfree. rewrite Hrun. cbn [snd files].
  rewrite lookup_delete_ne; [done|apply svg_path_not_filepath].
Qed.

(** The only step of [make_icns] and [finish] that can fail is iconutil. *)
Lemma main_from_copy (s0 s : state W) :
  (prepare FRONTEND_DIR;; process_all exec FRONTEND_DIR;; copy_main_icon FRONTEND_DIR) s0
    = (Normal tt, s) →
  main exec FRONTEND_DIR str_exn s0 =
    (make_icns exec FRONTEND_DIR str_exn;; finish FRONTEND_DIR) s.
Proof.
  unfold main, mbind, script_bind, bind.
  destruct (prepare FRONTEND_DIR s0) as [[[]| |e] s1]; [|done|done].
  destruct (process_all exec FRONTEND_DIR s1) as [[[]| |e] s2]; [|done|done].
  destruct (copy_main_icon FRONTEND_DIR s2) as [[[]| |e] s3]; [|done|done].
  by intros [= ->].
Qed.

(** Claim C2, amended.  When iconutil runs and exits with a status other
    than 0, the driver prints the failure line with the error, goes on to
    the closing lines and ends normally; the files at the end are exactly
    those iconutil left, the driver itself removes or rewrites nothing. *)
Theorem assembly_exit_status_is_logged (s0 s : state W) (n : Z) (w' : W)
    (f' : gmap string string) :
  (prepare FRONTEND_DIR;; process_all exec FRONTEND_DIR;; copy_main_icon FRONTEND_DIR) s0
    = (Normal tt, s) →
  exec (iconutil_cmd FRONTEND_DIR) (world s) (files s) = (Exited n, w', f') →
  n ≠ 0 →
  main exec FRONTEND_DIR str_exn s0 =
    (Normal tt,
     State f'
       (stdout s ++
        [ ""; "📦 Generating icon.icns...";
          "   ❌ Failed to generate icon.icns: "
            +:+ str_exn (CalledProcessError n (iconutil_cmd FRONTEND_DIR));
          ""; "✅ Icon generation complete!"; "   Output: " +:+ BUILD_DIR FRONTEND_DIR ])
       (calls s ++ [ (iconutil_cmd FRONTEND_DIR, Exited n) ])
       w').
Proof.
  intros Hs E Hn. rewrite (main_from_copy _ _ Hs).
  unfold_script. cbn [files world stdout calls]. rewrite E.
  destruct n as [|p|p]; [done| |]; cbn [called_process_error files world stdout calls].
  all: by rewrite <- !List.app_assoc.
Qed.

(** Claim C10.  Once the entries are processed, a bitmap at
    [icon_1024x1024.png] is copied to [icon_1024.png] in the build
    directory and the copy is announced; without that bitmap the step
    changes nothing: no file, no printed line, no exception. *)
Theorem largest_bitmap_copied_or_skipped (s0 s : state W) :
  (prepare FRONTEND_DIR;; process_all exec FRONTEND_DIR) s0 = (Normal tt, s) →
  (prepare FRONTEND_DIR;; process_all exec FRONTEND_DIR;; copy_main_icon FRONTEND_DIR) s0 =
    match files s !! icon_1024 FRONTEND_DIR with
    | Some bitmap =>
        (Normal tt,
         State (<[joinpath (BUILD_DIR FRONTEND_DIR) "icon_1024.png" := bitmap]> (files s))
               (stdout s ++ [ "   ✓ icon_1024.png" ]) (calls s) (world s))
    | None => (Normal tt, s)
    end.
Proof.
  unfold mbind, script_bind, bind.
  destruct (prepare FRONTEND_DIR s0) as [[[]| |e] s1]; [|done|done].
  destruct (process_all exec FRONTEND_DIR s1) as [[[]| |e] s2]; [|done|done].
  intros [= ->]. unfold_script. cbn [files world stdout calls].
  destruct (files s !! icon_1024 FRONTEND_DIR) as [bitmap|] eqn:E.
  - rewrite bool_decide_eq_true_2 by eauto. by rewrite E.
  - rewrite bool_decide_eq_false_2 by (by intros [? ?]). done.
Qed.

(** Claim C6.  For every entry of [SIZES] the driver asks the generator for
    [base_size * scale], writes the text it gets to the temporary file
    before anything else, and in that text the [width] and [height]
    attributes are that number and the [viewBox] is [0 0] followed by it
    twice. *)
Theorem descriptor_declares_actual_size (entry : Z * Z) :
  In entry SIZES →
  ∃ svg : string,
    Svg.generate_svg (entry.1 * entry.2) = Some svg ∧
    (∀ s : state W,
       process_entry exec FRONTEND_DIR entry s =
       rasterize_and_clean_up exec FRONTEND_DIR entry
         (set_files (<[svg_path FRONTEND_DIR entry := svg]> (files s)) s)) ∧
    attribute "width" svg = Some (str_int (entry.1 * entry.2)) ∧
    attribute "height" svg = Some (str_int (entry.1 * entry.2)) ∧
    attribute "viewBox" svg =
      Some ("0 0 " +:+ str_int (entry.1 * entry.2) +:+ " " +:+ str_int (entry.1 * entry.2)).
Proof.
  intros Hin.
  assert (is_Some (Svg.generate_svg (entry.1 * entry.2))) as [svg Hsvg].
  { apply SvgFacts.generate_svg_defined.
    cbn [In SIZES] in Hin. repeat (destruct Hin as [<-|Hin]; [vm_compute; eauto|]). done. }
  exists svg. split; [done|]. split; [|by apply SvgFacts.generate_svg_dimensions].
  intros s. unfold process_entry, call_generate_svg, actual_size. rewrite Hsvg. done.
Qed.

End Facts.



(** The stand-in programs write nothing when they fail. *)
Lemma stub_quiet outcome silent path : quiet_on_failure (Stub.exec outcome silent) path.
Proof. intros cmd w f H. unfold Stub.exec in *. cbn [fst snd] in *. by rewrite H. Qed.

Lemma first_converter_success_ends_chain_witness :
  calls (process_entry (Stub.exec Stub.all_ok Stub.never) Stub.FRONTEND_DIR (16, 1)
           Stub.initial).2 =
    [ (rsvg_convert_cmd Stub.FRONTEND_DIR (16, 1), Exited 0) ] ∧
  ([] : list call) = [].
Proof.
  split; [vm_compute; reflexivity|].
  apply (first_converter_success_ends_chain (Stub.exec Stub.all_ok Stub.never)
           Stub.FRONTEND_DIR (16, 1) Stub.initial []).
  vm_compute; reflexivity.
Defined.



Lemma temporary_file_left_after_failure_witness :
  is_Some (files (process_entry (Stub.exec Stub.all_exit_1 Stub.never) Stub.FRONTEND_DIR
                    (16, 1) Stub.initial).2 !! svg_path Stub.FRONTEND_DIR (16, 1)).
Proof.
  pose proof (temporary_file_left_after_failure (Stub.exec Stub.all_exit_1 Stub.never)
                Stub.FRONTEND_DIR (16, 1) [] Stub.initial
                (Exited 1) (Exited 1) (Exited 1)) as H.
  destruct H as (H1 & _).
  - vm_compute; reflexivity.
  - reflexivity.
  - reflexivity.
  - reflexivity.
  - apply stub_quiet.
  - exact H1.
Defined.

(** Only qlmanage is there, and it writes nothing. *)
Lemma qlmanage_success_without_output_witness :
  (process_entry (Stub.exec Stub.only_qlmanage (fun _ => true)) Stub.FRONTEND_DIR (16, 1)
     Stub.initial).1 = Normal tt ∧
  map fst (calls (process_entry (Stub.exec Stub.only_qlmanage (fun _ => true))
                    Stub.FRONTEND_DIR (16, 1) Stub.initial).2) =
    [ rsvg_convert_cmd Stub.FRONTEND_DIR (16, 1); qlmanage_cmd Stub.FRONTEND_DIR (16, 1) ] ∧
  files (process_entry (Stub.exec Stub.only_qlmanage (fun _ => true)) Stub.FRONTEND_DIR
           (16, 1) Stub.initial).2 !! filepath Stub.FRONTEND_DIR (16, 1) = None.
Proof.
  destruct (Svg.generate_svg 16) as [svg|] eqn:Hsvg; [|vm_compute in Hsvg; discriminate].
  pose proof (qlmanage_success_without_output (Stub.exec Stub.only_qlmanage (fun _ => true))
                Stub.FRONTEND_DIR (16, 1) Stub.initial svg NotFound tt tt
                (<[svg_path Stub.FRONTEND_DIR (16, 1) := svg]> ∅)
                (<[svg_path Stub.FRONTEND_DIR (16, 1) := svg]> ∅)) as H.
  destruct H as (H1 & H2).
  - exact Hsvg.
  - reflexivity.
  - by left.
  - reflexivity.
  - apply lookup_insert_None. split; [apply lookup_empty|]. vm_compute. discriminate.
  - rewrite H1. cbn [fst snd calls map]. split; [done|]. split; [done|].
    rewrite H1 in H2. apply H2.
    apply lookup_insert_None. split; [apply lookup_empty|]. vm_compute. discriminate.
Defined.

Lemma assembly_exit_status_is_logged_witness :
  (Stub.run Stub.iconutil_exit_1 Stub.never).1 = Normal tt ∧
  ∃ line, last (removelast (removelast (removelast
            (stdout (Stub.run Stub.iconutil_exit_1 Stub.never).2)))) = Some line ∧
          String.prefix "   ❌ Failed to generate icon.icns: " line = true.
Proof.
  set (s := ((prepare Stub.FRONTEND_DIR;;
              process_all (Stub.exec Stub.iconutil_exit_1 Stub.never) Stub.FRONTEND_DIR;;
              copy_main_icon Stub.FRONTEND_DIR) Stub.initial).2).
  assert (H := assembly_exit_status_is_logged (Stub.exec Stub.iconutil_exit_1 Stub.never)
                 Stub.FRONTEND_DIR Stub.str_exn Stub.initial s 1 tt (files s)).
  unfold Stub.run. rewrite H.
  - split; [reflexivity|]. eexists. split; vm_compute; reflexivity.
  - vm_compute; reflexivity.
  - vm_compute; reflexivity.
  - discriminate.
Defined.

(** Claim C2 as stated fails: with iconutil not installed its invocation
    fails, and [FileNotFoundError] leaves [main]. *)
Lemma assembly_tool_missing_escapes :
  last (calls (Stub.run Stub.no_iconutil Stub.never).2) =
    Some (iconutil_cmd Stub.FRONTEND_DIR, NotFound) ∧
  failed NotFound = true ∧
  (Stub.run Stub.no_iconutil Stub.never).1 = Raise FileNotFoundError.
Proof. vm_compute. done. Qed.

Lemma largest_bitmap_copied_or_skipped_witness :
  files ((prepare Stub.FRONTEND_DIR;;
          process_all (Stub.exec Stub.all_ok Stub.never) Stub.FRONTEND_DIR;;
          copy_main_icon Stub.FRONTEND_DIR) Stub.initial).2
    !! joinpath (BUILD_DIR Stub.FRONTEND_DIR) "icon_1024.png" = Some "bitmap of rsvg-convert" ∧
  (prepare Stub.FRONTEND_DIR;;
   process_all (Stub.exec Stub.no_converter Stub.never) Stub.FRONTEND_DIR;;
   copy_main_icon Stub.FRONTEND_DIR) Stub.initial =
  (prepare Stub.FRONTEND_DIR;;
   process_all (Stub.exec Stub.no_converter Stub.never) Stub.FRONTEND_DIR) Stub.initial.
Proof.
  split.
  - rewrite (largest_bitmap_copied_or_skipped (Stub.exec Stub.all_ok Stub.never)
               Stub.FRONTEND_DIR Stub.initial
               ((prepare Stub.FRONTEND_DIR;;
                 process_all (Stub.exec Stub.all_ok Stub.never) Stub.FRONTEND_DIR)
                  Stub.initial).2); [|vm_compute; reflexivity].
    vm_compute; reflexivity.
  - rewrite (largest_bitmap_copied_or_skipped (Stub.exec Stub.no_converter Stub.never)
               Stub.FRONTEND_DIR Stub.initial
               ((prepare Stub.FRONTEND_DIR;;
                 process_all (Stub.exec Stub.no_converter Stub.never) Stub.FRONTEND_DIR)
                  Stub.initial).2); [|vm_compute; reflexivity].
    vm_compute; reflexivity.
Defined.

Lemma descriptor_declares_actual_size_witness :
  ∃ svg, Svg.generate_svg 1024 = Some svg ∧ attribute "viewBox" svg = Some "0 0 1024 1024".
Proof.
  destruct (descriptor_declares_actual_size (Stub.exec Stub.all_ok Stub.never)
              Stub.FRONTEND_DIR (512, 2)) as (svg & H1 & _ & _ & _ & H2).
  - cbn [In SIZES]. do 11 right. by left.
  - exists svg. split; [exact H1|exact H2].
Defined.

End DriverFacts.

(** * More on the fallback chain *)

Module ChainFacts.
Import Text Py Os Driver DriverFacts.

Section Chain.
Context {W : Type}.
Variable exec : list string → W → gmap string string → spawned * W * gmap string string.
Variable FRONTEND_DIR : string.

Lemma ql_output_not_filepath entry : ql_output FRONTEND_DIR entry ≠ filepath FRONTEND_DIR entry.
Proof.
  unfold ql_output, filepath, joinpath. intros H.
  apply TextFacts.app_inj_l in H. discriminate H.
Qed.

Lemma svg_path_not_ql_output entry : svg_path FRONTEND_DIR entry ≠ ql_output FRONTEND_DIR entry.
Proof.
  unfold ql_output, svg_path, joinpath. intros H.
  do 4 apply TextFacts.app_inj_l in H. discriminate H.
Qed.

(** When rsvg-convert exits with status 0 the entry ends normally: the
    temporary descriptor is removed from the files the program left, the
    success line is printed and nothing else is run. *)
Theorem rsvg_convert_success (entry : Z * Z) (s : state W) (svg : string) (w1 : W)
    (f1 : gmap string string) :
  Svg.generate_svg (actual_size entry) = Some svg →
  exec (rsvg_convert_cmd FRONTEND_DIR entry) (world s)
       (<[svg_path FRONTEND_DIR entry := svg]> (files s)) = (Exited 0, w1, f1) →
  process_entry exec FRONTEND_DIR entry s =
    (Normal tt,
     State (delete (svg_path FRONTEND_DIR entry) f1)
           (stdout s ++ [ "   ✓ " +:+ filename entry +:+ " (" +:+ str_int (actual_size entry)
                          +:+ "x" +:+ str_int (actual_size entry) +:+ ")" ])
           (calls s ++ [ (rsvg_convert_cmd FRONTEND_DIR entry, Exited 0) ])
           w1).
Proof.
  intros Hsvg E1. unfold_script. rewrite Hsvg. cbn [files world stdout calls].
  by rewrite E1.
Qed.

(** When rsvg-convert fails in a way the script catches and qlmanage
    exits with status 0 having written its thumbnail, the thumbnail is
    moved to the entry's target path: the bitmap is at the target, the
    thumbnail name and the temporary descriptor are gone, the success line
    is printed and convert is not run. *)
Theorem qlmanage_output_is_renamed (entry : Z * Z) (s : state W) (svg png : string)
    (r1 : spawned) (w1 w2 : W) (f1 f2 : gmap string string) :
  Svg.generate_svg (actual_size entry) = Some svg →
  exec (rsvg_convert_cmd FRONTEND_DIR entry) (world s)
       (<[svg_path FRONTEND_DIR entry := svg]> (files s)) = (r1, w1, f1) →
  r1 = NotFound ∨ (∃ n, n ≠ 0 ∧ r1 = Exited n) →
  exec (qlmanage_cmd FRONTEND_DIR entry) w1 f1 = (Exited 0, w2, f2) →
  f2 !! ql_output FRONTEND_DIR entry = Some png →
  process_entry exec FRONTEND_DIR entry s =
    (Normal tt,
     State (delete (svg_path FRONTEND_DIR entry)
              (<[filepath FRONTEND_DIR entry := png]>
                 (delete (ql_output FRONTEND_DIR entry) f2)))
           (stdout s ++ [ "   ✓ " +:+ filename entry +:+ " (" +:+ str_int (actual_size entry)
                          +:+ "x" +:+ str_int (actual_size entry) +:+ ")" ])
           (calls s ++ [ (rsvg_convert_cmd FRONTEND_DIR entry, r1);
                         (qlmanage_cmd FRONTEND_DIR entry, Exited 0) ])
           w2) ∧
  files (process_entry exec FRONTEND_DIR entry s).2 !! filepath FRONTEND_DIR entry = Some png ∧
  files (process_entry exec FRONTEND_DIR entry s).2 !! ql_output FRONTEND_DIR entry = None ∧
  files (process_entry exec FRONTEND_DIR entry s).2 !! svg_path FRONTEND_DIR entry = None.
Proof.
  intros Hsvg E1 Hr1 E2 Hout.
  assert (process_entry exec FRONTEND_DIR entry s =
    (Normal tt,
     State (delete (svg_path FRONTEND_DIR entry)
              (<[filepath FRONTEND_DIR entry := png]>
                 (delete (ql_output FRONTEND_DIR entry) f2)))
           (stdout s ++ [ "   ✓ " +:+ filename entry +:+ " (" +:+ str_int (actual_size entry)
                          +:+ "x" +:+ str_int (actual_size entry) +:+ ")" ])
           (calls s ++ [ (rsvg_convert_cmd FRONTEND_DIR entry, r1);
                         (qlmanage_cmd FRONTEND_DIR entry, Exited 0) ])
           w2)) as Hrun.
  { unfold_script. rewrite Hsvg. cbn [files world stdout calls]. rewrite E1.
    destruct Hr1 as [->|(n & Hn & ->)]; [|destruct n as [|p|p]; [done| |]].
    all: cbn [fst snd calls files stdout world called_process_or_not_found].
    all: rewrite E2; cbn [fst snd calls files stdout world].
    all: rewrite Hout, bool_decide_eq_true_2 by eauto.
    all: cbn [fst snd calls files stdout world]; rewrite Hout.
    all: by rewrite <- List.app_assoc. }
  rewrite Hrun. cbn [snd files]. split; [done|]. split; [|split].
  - rewrite lookup_delete_ne by apply svg_path_not_filepath. apply lookup_insert_eq.
  - rewrite lookup_delete_ne by apply svg_path_not_ql_output.
    rewrite lookup_insert_ne by (intros H; by apply (ql_output_not_filepath entry)).
    apply lookup_delete_eq.
  - apply lookup_delete_eq.
Qed.

(** When rsvg-convert and qlmanage fail and convert exits with status 0,
    the entry prints the warning, then ends normally like any success: the
    temporary descriptor is removed from the files convert left and the
    success line is printed. *)
Theorem convert_success_after_two_failures (entry : Z * Z) (s : state W) (svg : string)
    (r1 r2 : spawned) (w1 w2 w3 : W) (f1 f2 f3 : gmap string string) :
  Svg.generate_svg (actual_size entry) = Some svg →
  exec (rsvg_convert_cmd FRONTEND_DIR entry) (world s)
       (<[svg_path FRONTEND_DIR entry := svg]> (files s)) = (r1, w1, f1) →
  r1 = NotFound ∨ (∃ n, n ≠ 0 ∧ r1 = Exited n) →
  exec (qlmanage_cmd FRONTEND_DIR entry) w1 f1 = (r2, w2, f2) →
  failed r2 = true →
  exec (convert_cmd FRONTEND_DIR entry) w2 f2 = (Exited 0, w3, f3) →
  process_entry exec FRONTEND_DIR entry s =
    (Normal tt,
     State (delete (svg_path FRONTEND_DIR entry) f3)
           (stdout s ++
            [ "   ⚠️  Could not convert " +:+ filename entry +:+ ", trying alternative...";
              "   ✓ " +:+ filename entry +:+ " (" +:+ str_int (actual_size entry)
              +:+ "x" +:+ str_int (actual_size entry) +:+ ")" ])
           (calls s ++ [ (rsvg_convert_cmd FRONTEND_DIR entry, r1);
                         (qlmanage_cmd FRONTEND_DIR entry, r2);
                         (convert_cmd FRONTEND_DIR entry, Exited 0) ])
           w3).
Proof.
  intros Hsvg E1 Hr1 E2 Hr2 E3.
  unfold_script. rewrite Hsvg. cbn [files world stdout calls]. rewrite E1.
  destruct Hr1 as [->|(n & Hn & ->)]; [|destruct n as [|p|p]; [done| |]].
  all: cbn [fst snd calls files stdout world called_process_or_not_found].
  all: rewrite E2; destruct r2 as [[|q|q]| |]; [done|..].
  all: cbn [fst snd calls files stdout world anything].
  all: rewrite E3; cbn [fst snd calls files stdout world].
  all: by rewrite <- !List.app_assoc.
Qed.

(** A first converter that cannot be started for a reason other than its
    absence (the clause of line 125 names two classes only) ends the whole
    loop: the error leaves the entry, no other converter is tried, the
    temporary descriptor stays and the entries that follow are not
    processed. *)
Theorem rsvg_convert_cannot_start (entry : Z * Z) (rest : list (Z * Z)) (s : state W)
    (svg : string) (w1 : W) (f1 : gmap string string) :
  Svg.generate_svg (actual_size entry) = Some svg →
  exec (rsvg_convert_cmd FRONTEND_DIR entry) (world s)
       (<[svg_path FRONTEND_DIR entry := svg]> (files s)) = (CannotStart, w1, f1) →
  process_entry exec FRONTEND_DIR entry s =
    (Raise OSError,
     State f1 (stdout s) (calls s ++ [ (rsvg_convert_cmd FRONTEND_DIR entry, CannotStart) ]) w1) ∧
  for_each (entry :: rest) (process_entry exec FRONTEND_DIR) s =
    (Raise OSError,
     State f1 (stdout s) (calls s ++ [ (rsvg_convert_cmd FRONTEND_DIR entry, CannotStart) ]) w1).
Proof.
  intros Hsvg E1.
  assert (process_entry exec FRONTEND_DIR entry s =
    (Raise OSError,
     State f1 (stdout s) (calls s ++ [ (rsvg_convert_cmd FRONTEND_DIR entry, CannotStart) ]) w1))
    as Hrun.
  { unfold_script. rewrite Hsvg. cbn [files world stdout calls]. by rewrite E1. }
  split; [done|]. cbn [for_each]. by rewrite Hrun.
Qed.

(** The programs an entry runs are an initial part of the chain
    rsvg-convert, qlmanage, convert, in that order: never more than three,
    never one out of turn, none twice. *)
Theorem converters_run_in_order (entry : Z * Z) (s : state W) :
  ∃ new : list call,
    calls (process_entry exec FRONTEND_DIR entry s).2 = calls s ++ new ∧
    map fst new `prefix_of`
      [ rsvg_convert_cmd FRONTEND_DIR entry; qlmanage_cmd FRONTEND_DIR entry;
        convert_cmd FRONTEND_DIR entry ].
Proof.
  unfold_script.
  destruct (Svg.generate_svg (actual_size entry)) as [svg|]; crunch.
  all: try (eexists; split; [rewrite <- ?List.app_assoc; reflexivity|];
            cbn [map fst app]; by eexists).
  exists []. split; [by rewrite List.app_nil_r|]. by eexists.
Qed.

End Chain.

Lemma rsvg_convert_success_witness :
  (process_entry (Stub.exec Stub.all_ok Stub.never) Stub.FRONTEND_DIR (16, 1) Stub.initial).1
    = Normal tt ∧
  files (process_entry (Stub.exec Stub.all_ok Stub.never) Stub.FRONTEND_DIR (16, 1)
           Stub.initial).2 !! svg_path Stub.FRONTEND_DIR (16, 1) = None.
Proof.
  destruct (Svg.generate_svg 16) as [svg|] eqn:Hsvg; [|vm_compute in Hsvg; discriminate].
  rewrite (rsvg_convert_success (Stub.exec Stub.all_ok Stub.never) Stub.FRONTEND_DIR (16, 1)
             Stub.initial svg tt _ Hsvg eq_refl).
  split; [reflexivity|apply lookup_delete_eq].
Defined.

Lemma qlmanage_output_is_renamed_witness :
  files (process_entry (Stub.exec Stub.only_qlmanage Stub.never) Stub.FRONTEND_DIR (16, 1)
           Stub.initial).2 !! filepath Stub.FRONTEND_DIR (16, 1) = Some "bitmap of qlmanage".
Proof.
  destruct (Svg.generate_svg 16) as [svg|] eqn:Hsvg; [|vm_compute in Hsvg; discriminate].
  refine (proj1 (proj2 (qlmanage_output_is_renamed (Stub.exec Stub.only_qlmanage Stub.never)
            Stub.FRONTEND_DIR (16, 1) Stub.initial svg "bitmap of qlmanage" NotFound tt tt
            _ _ Hsvg eq_refl (or_introl eq_refl) eq_refl _))).
  apply lookup_insert_eq.
Defined.

Lemma convert_success_after_two_failures_witness :
  stdout (process_entry
            (Stub.exec (fun cmd => if String.eqb (Stub.program cmd) "convert"
                                   then Exited 0 else Exited 1) Stub.never)
            Stub.FRONTEND_DIR (16, 1) Stub.initial).2 =
    [ "   ⚠️  Could not convert icon_16x16.png, trying alternative...";
      "   ✓ icon_16x16.png (16x16)" ].
Proof.
  destruct (Svg.generate_svg 16) as [svg|] eqn:Hsvg; [|vm_compute in Hsvg; discriminate].
  rewrite (convert_success_after_two_failures
             (Stub.exec (fun cmd => if String.eqb (Stub.program cmd) "convert"
                                    then Exited 0 else Exited 1) Stub.never)
             Stub.FRONTEND_DIR (16, 1) Stub.initial svg (Exited 1) (Exited 1) tt tt tt
             _ _ _ Hsvg eq_refl (or_intror (ex_intro _ 1 (conj (Z.neq_sym _ _ (Z.lt_neq 0 1 Z.lt_0_1)) eq_refl)))
             eq_refl eq_refl eq_refl).
  reflexivity.
Defined.

Lemma rsvg_convert_cannot_start_witness :
  (for_each SIZES (process_entry (Stub.exec (fun _ => CannotStart) Stub.never)
                     Stub.FRONTEND_DIR) Stub.initial).1 = Raise OSError ∧
  length (calls (for_each SIZES (process_entry (Stub.exec (fun _ => CannotStart) Stub.never)
                                   Stub.FRONTEND_DIR) Stub.initial).2) = 1%nat.
Proof.
  destruct (Svg.generate_svg 16) as [svg|] eqn:Hsvg; [|vm_compute in Hsvg; discriminate].
  unfold SIZES.
  rewrite (proj2 (rsvg_convert_cannot_start (Stub.exec (fun _ => CannotStart) Stub.never)
             Stub.FRONTEND_DIR (16, 1) _ Stub.initial svg tt _ Hsvg eq_refl)).
  split; reflexivity.
Defined.

Lemma temporary_file_removed_on_success_witness :
  files (process_entry (Stub.exec Stub.only_qlmanage Stub.never) Stub.FRONTEND_DIR (32, 2)
           Stub.initial).2 !! svg_path Stub.FRONTEND_DIR (32, 2) = None.
Proof.
  apply (temporary_file_removed_on_success (Stub.exec Stub.only_qlmanage Stub.never)
           Stub.FRONTEND_DIR (32, 2) Stub.initial).
  vm_compute. reflexivity.
Defined.

End ChainFacts.

(** * The whole run *)

Module RunFacts.
Import Text Py Os Driver DriverFacts.

Section Run.
Context {W : Type}.
Variable exec : list string → W → gmap string string → spawned * W * gmap string string.
Variable FRONTEND_DIR : string.
Variable str_exn : exn → string.

(** Every entry of the fixed list has a descriptor. *)
Lemma sizes_have_descriptors entry :
  In entry SIZES → is_Some (Svg.generate_svg (actual_size entry)).
Proof.
  intros Hin. apply SvgFacts.generate_svg_defined.
  cbn [In SIZES] in Hin. repeat (destruct Hin as [<-|Hin]; [vm_compute; eauto|]). done.
Qed.

(** One entry, when rsvg-convert can be started or is absent: it ends
    normally or by [continue], having run rsvg-convert first and then at
    most qlmanage and convert. *)
Lemma entry_outcome (entry : Z * Z) (s : state W) :
  is_Some (Svg.generate_svg (actual_size entry)) →
  (∀ w f, (exec (rsvg_convert_cmd FRONTEND_DIR entry) w f).1.1 ≠ CannotStart) →
  ∃ c s' r tail,
    process_entry exec FRONTEND_DIR entry s = (c, s') ∧
    (c = Normal tt ∨ c = Continue) ∧
    calls s' = calls s ++ (rsvg_convert_cmd FRONTEND_DIR entry, r) :: tail ∧
    (map fst tail = [] ∨
     map fst tail = [ qlmanage_cmd FRONTEND_DIR entry ] ∨
     map fst tail = [ qlmanage_cmd FRONTEND_DIR entry; convert_cmd FRONTEND_DIR entry ]).
Proof.
  intros [svg Hsvg] Hstart. unfold_script. rewrite Hsvg.
  crunch.
  all: try match goal with
       | E : exec (rsvg_convert_cmd _ _) ?w ?f = (CannotStart, _, _) |- _ =>
           exfalso; apply (Hstart w f); by rewrite E
       end.
  all: do 4 eexists; split; [reflexivity|]; split; [by eauto|].
  all: cbn [calls]; rewrite <- ?List.app_assoc; split; [reflexivity|].
  all: cbn [map fst app]; by eauto.
Qed.

Lemma rsvg_calls_entry (entry : Z * Z) (r : spawned) (tail : list call) :
  (map fst tail = [] ∨
   map fst tail = [ qlmanage_cmd FRONTEND_DIR entry ] ∨
   map fst tail = [ qlmanage_cmd FRONTEND_DIR entry; convert_cmd FRONTEND_DIR entry ]) →
  rsvg_calls ((rsvg_convert_cmd FRONTEND_DIR entry, r) :: tail) =
    [ rsvg_convert_cmd FRONTEND_DIR entry ].
Proof.
  unfold rsvg_calls. cbn [map fst]. intros [->|[->| ->]]; reflexivity.
Qed.

Lemma rsvg_calls_app l1 l2 : rsvg_calls (l1 ++ l2) = rsvg_calls l1 ++ rsvg_calls l2.
Proof. unfold rsvg_calls. by rewrite map_app, filter_app. Qed.

(** The loop over a list of entries that all have descriptors. *)
Lemma loop_outcome (entries : list (Z * Z)) :
  (∀ entry, In entry entries → is_Some (Svg.generate_svg (actual_size entry))) →
  (∀ entry w f, (exec (rsvg_convert_cmd FRONTEND_DIR entry) w f).1.1 ≠ CannotStart) →
  ∀ s, ∃ s',
    for_each entries (process_entry exec FRONTEND_DIR) s = (Normal tt, s') ∧
    rsvg_calls (calls s') =
      rsvg_calls (calls s) ++ map (rsvg_convert_cmd FRONTEND_DIR) entries.
Proof.
  intros Hsvg Hstart. induction entries as [|entry entries IH]; intros s.
  - exists s. split; [done|]. by rewrite List.app_nil_r.
  - destruct (entry_outcome entry s (Hsvg entry (or_introl eq_refl)) (Hstart entry))
      as (c & s1 & r & tail & Hrun & Hc & Hcalls & Htail).
    destruct (IH (λ e He, Hsvg e (or_intror He)) s1) as (s' & Hloop & Hlog).
    exists s'. cbn [for_each]. rewrite Hrun.
    split; [by destruct Hc as [-> | ->]|].
    rewrite Hlog, Hcalls, rsvg_calls_app, (rsvg_calls_entry entry r tail Htail).
    by rewrite <- List.app_assoc.
Qed.

Lemma prepare_ok (s0 : state W) :
  files s0 !! BUILD_DIR FRONTEND_DIR = None →
  files s0 !! ICONSET_DIR FRONTEND_DIR = None →
  ∃ s, prepare FRONTEND_DIR s0 = (Normal tt, s) ∧ calls s = calls s0 ∧ files s = files s0.
Proof.
  intros H1 H2. unfold prepare, mkdir_parents_exist_ok. unfold_script.
  rewrite H1, H2. by eexists.
Qed.

Lemma copy_main_icon_ok (s : state W) :
  ∃ s', copy_main_icon FRONTEND_DIR s = (Normal tt, s') ∧ calls s' = calls s.
Proof.
  unfold_script.
  destruct (files s !! icon_1024 FRONTEND_DIR) as [bitmap|] eqn:E.
  - rewrite bool_decide_eq_true_2 by eauto. cbn [files]. rewrite E. by eexists.
  - rewrite bool_decide_eq_false_2 by (by intros [? ?]). by eexists.
Qed.

Lemma make_icns_ok (s : state W) :
  (∀ w f, ∃ n, (exec (iconutil_cmd FRONTEND_DIR) w f).1.1 = Exited n) →
  ∃ s' r,
    (make_icns exec FRONTEND_DIR str_exn;; finish FRONTEND_DIR) s = (Normal tt, s') ∧
    calls s' = calls s ++ [ (iconutil_cmd FRONTEND_DIR, r) ].
Proof.
  intros Hstart. unfold_script. cbn [files world stdout calls].
  destruct (Hstart (world s) (files s)) as [n Hn].
  destruct (exec (iconutil_cmd FRONTEND_DIR) (world s) (files s)) as [[r w] f].
  cbn [fst] in Hn. subst r. destruct n as [|p|p]; cbn [called_process_error]; by do 2 eexists.
Qed.

(** Nothing but a directory that cannot be made, a converter that cannot be
    started and a missing iconutil stops the run: with the output
    directories free, rsvg-convert either absent or startable and iconutil
    startable, [main] ends normally whatever the programs answer, and it has
    run rsvg-convert once for each of the thirteen entries, in the order of
    the list. *)
Theorem run_completes (s0 : state W) :
  files s0 !! BUILD_DIR FRONTEND_DIR = None →
  files s0 !! ICONSET_DIR FRONTEND_DIR = None →
  (∀ entry w f, (exec (rsvg_convert_cmd FRONTEND_DIR entry) w f).1.1 ≠ CannotStart) →
  (∀ w f, ∃ n, (exec (iconutil_cmd FRONTEND_DIR) w f).1.1 = Exited n) →
  (main exec FRONTEND_DIR str_exn s0).1 = Normal tt ∧
  rsvg_calls (calls (main exec FRONTEND_DIR str_exn s0).2) =
    rsvg_calls (calls s0) ++ map (rsvg_convert_cmd FRONTEND_DIR) SIZES.
Proof.
  intros Hb Hi Hstart Hicon.
  destruct (prepare_ok s0 Hb Hi) as (s1 & E1 & C1 & _).
  destruct (loop_outcome SIZES sizes_have_descriptors Hstart s1) as (s2 & E2 & C2).
  destruct (copy_main_icon_ok s2) as (s3 & E3 & C3).
  destruct (make_icns_ok s3 Hicon) as (s4 & r & E4 & C4).
  assert (main exec FRONTEND_DIR str_exn s0 = (Normal tt, s4)) as ->.
  { rewrite <- E4. unfold main, process_all, mbind, script_bind, bind at 1 2 3.
    by rewrite E1, E2, E3. }
  split; [done|]. cbn [snd].
  rewrite C4, rsvg_calls_app, C3, C2, C1. apply List.app_nil_r.
Qed.

(** A regular file where the build or the iconset directory should be
    stops the run at once: the error leaves [main] before a line is printed
    or a program run. *)
Theorem directory_in_the_way (s0 : state W) :
  is_Some (files s0 !! BUILD_DIR FRONTEND_DIR) ∨
  is_Some (files s0 !! ICONSET_DIR FRONTEND_DIR) →
  main exec FRONTEND_DIR str_exn s0 = (Raise OSError, s0).
Proof.
  intros H. unfold main, prepare, mkdir_parents_exist_ok, mbind, script_bind, bind.
  destruct (files s0 !! BUILD_DIR FRONTEND_DIR), (files s0 !! ICONSET_DIR FRONTEND_DIR);
    try done.
  by destruct H as [[? ?]|[? ?]].
Qed.

End Run.

Lemma run_completes_witness :
  (Stub.run Stub.fail_at_32 Stub.never).1 = Normal tt ∧
  length (rsvg_calls (calls (Stub.run Stub.fail_at_32 Stub.never).2)) = 13%nat.
Proof.
  destruct (run_completes (Stub.exec Stub.fail_at_32 Stub.never) Stub.FRONTEND_DIR
              Stub.str_exn Stub.initial) as [H1 H2].
  - reflexivity.
  - reflexivity.
  - intros entry w f. cbn [Stub.exec fst].
    unfold Stub.fail_at_32, rsvg_convert_cmd.
    by destruct (String.eqb_spec (str_int (actual_size entry)) "32") as [->|];
      repeat case_match.
  - intros w f. by exists 0.
  - unfold Stub.run. rewrite H1, H2. split; reflexivity.
Defined.

Lemma directory_in_the_way_witness :
  main (Stub.exec Stub.all_ok Stub.never) Stub.FRONTEND_DIR Stub.str_exn
       (State {[ ICONSET_DIR Stub.FRONTEND_DIR := "not a directory" ]} [] [] tt) =
  (Raise OSError, State {[ ICONSET_DIR Stub.FRONTEND_DIR := "not a directory" ]} [] [] tt).
Proof.
  apply directory_in_the_way. right. cbn [files]. rewrite lookup_singleton_eq. by eexists.
Defined.

End RunFacts.

(** * More on the descriptor *)

Module SvgMore.
Import Text Py Svg TextFacts PyFacts SvgFacts.

(** The inner-shadow filter scales with the size: the blur is 0.02 x size
    and both offsets are 0.01 x size, as binary64 products printed by
    [repr]. *)
Theorem shadow_scales_with_size (size : Z) (svg : string) :
  generate_svg size = Some svg →
  ∃ fsize : float,
    float_of_int size = Some fsize ∧
    attribute "stdDeviation" svg = Some (repr_float (fmul fsize (literal 2 100))) ∧
    attribute "dx" svg = Some (repr_float (fmul fsize (literal 1 100))) ∧
    attribute "dy" svg = Some (repr_float (fmul fsize (literal 1 100))).
Proof.
  unfold generate_svg, int_times.
  destruct (float_of_int size) as [f|]; [|discriminate].
  cbn [mbind option_bind]. rewrite strip_path by apply numeric_repr_float.
  intros H. apply (inj Some) in H. rewrite <- H. clear H.
  exists f. split; [done|].
  change (literal 2 100) with lit_0_02. change (literal 1 100) with lit_0_01.
  cbn [concat_all]. rewrite ?app_assoc. change (EmptyString +:+ ?x) with x.
  name_numbers. split; [|split].
  - search.
  - search.
  - search.
Qed.

Lemma shadow_scales_with_size_witness :
  ∃ svg, generate_svg 16 = Some svg ∧
    attribute "stdDeviation" svg = Some "0.32" ∧ attribute "dx" svg = Some "0.16".
Proof.
  destruct (generate_svg 16) as [svg|] eqn:E; [|vm_compute in E; discriminate].
  destruct (shadow_scales_with_size 16 svg E) as (f & Hf & H1 & H2 & _).
  vm_compute in Hf. injection Hf as <-.
  exists svg. split; [reflexivity|]. split; [exact H1|exact H2].
Defined.

Lemma ends_with_app (t a b : string) :
  (∃ body, b = body +:+ t) → ∃ body, a +:+ b = body +:+ t.
Proof. intros [body ->]. exists (a +:+ body). by rewrite app_assoc. Qed.

(** Whatever the size, a descriptor starts with the XML declaration
    followed by the opening [svg] tag and ends with the closing one. *)
Theorem descriptor_frame (size : Z) (svg : string) :
  generate_svg size = Some svg →
  (∃ rest, svg = q "<?xml version=`1.0` encoding=`UTF-8`?>
<svg width=`" +:+ str_int size +:+ rest) ∧
  (∃ body, svg = body +:+ "</svg>").
Proof.
  unfold generate_svg, int_times.
  destruct (float_of_int size) as [f|]; [|discriminate].
  cbn [mbind option_bind].
  intros H. apply (inj Some) in H. rewrite <- H. clear H.
  split.
  - cbn [concat_all]. by eexists.
  - cbn [concat_all].
    repeat match goal with
           | |- ∃ body, _ +:+ (_ +:+ _) = _ => apply ends_with_app
           end.
    match goal with
    | |- ∃ body, ?c = _ => exists (substring 0 (String.length c - 6) c)
    end.
    vm_compute. reflexivity.
Qed.

Lemma descriptor_frame_witness :
  ∃ svg, generate_svg 16 = Some svg ∧ ∃ body, svg = body +:+ "</svg>".
Proof.
  destruct (generate_svg 16) as [svg|] eqn:E; [|vm_compute in E; discriminate].
  exists svg. split; [reflexivity|]. exact (proj2 (descriptor_frame 16 svg E)).
Defined.

End SvgMore.

(** * The range of sizes the generator accepts *)

Module RangeFacts.
Import Py.

Lemma digits2_bounds (p : positive) :
  2 ^ (Z.pos (digits2_pos p) - 1) ≤ Z.pos p < 2 ^ Z.pos (digits2_pos p).
Proof.
  induction p as [p IH|p IH|]; cbn [digits2_pos].
  - rewrite Pos2Z.inj_succ.
    replace (Z.succ (Z.pos (digits2_pos p)) - 1) with (Z.succ (Z.pos (digits2_pos p) - 1)) by lia.
    rewrite !Z.pow_succ_r by lia. lia.
  - rewrite Pos2Z.inj_succ.
    replace (Z.succ (Z.pos (digits2_pos p)) - 1) with (Z.succ (Z.pos (digits2_pos p) - 1)) by lia.
    rewrite !Z.pow_succ_r by lia. lia.
  - cbn. lia.
Qed.

Lemma digits2_unique (p : positive) (k : Z) :
  2 ^ (k - 1) ≤ Z.pos p < 2 ^ k → Z.pos (digits2_pos p) = k.
Proof.
  intros [Hl Hu]. pose proof (digits2_bounds p) as [Hl' Hu'].
  destruct (Z.lt_trichotomy (Z.pos (digits2_pos p)) k) as [H|[H|H]]; [|done|].
  - assert (2 ^ Z.pos (digits2_pos p) ≤ 2 ^ (k - 1)) by (apply Z.pow_le_mono_r; lia). lia.
  - assert (0 ≤ k).
    { destruct (Z.le_gt_cases 0 k); [done|]. rewrite (Z.pow_neg_r 2 k) in Hu by lia. lia. }
    assert (2 ^ k ≤ 2 ^ (Z.pos (digits2_pos p) - 1)) by (apply Z.pow_le_mono_r; lia). lia.
Qed.

Lemma iter_pos_nat {A} (f : A → A) (k : positive) (x : A) :
  SpecFloat.iter_pos f k x = Nat.iter (Pos.to_nat k) f x.
Proof.
  revert x. induction k as [k IH|k IH|]; intros x; cbn [SpecFloat.iter_pos].
  - rewrite !IH, Pos2Nat.inj_xI, Nat.iter_succ_r.
    replace (2 * Pos.to_nat k)%nat with (Pos.to_nat k + Pos.to_nat k)%nat by lia.
    by rewrite Nat.iter_add.
  - rewrite !IH, Pos2Nat.inj_xO.
    replace (2 * Pos.to_nat k)%nat with (Pos.to_nat k + Pos.to_nat k)%nat by lia.
    by rewrite Nat.iter_add.
  - reflexivity.
Qed.

Lemma shr_1_m (mrs : shr_record) :
  0 ≤ shr_m mrs → shr_m (shr_1 mrs) = shr_m mrs / 2 ∧ shr_r (shr_1 mrs) = Z.odd (shr_m mrs).
Proof.
  destruct mrs as [m r s]. cbn [shr_m]. intros Hm.
  destruct m as [|[p|p|]|p]; cbn [shr_1 shr_m shr_r]; [done| | |done|lia].
  - split; [|done]. rewrite Pos2Z.inj_xI.
    by rewrite <- (Z.div_unique (2 * Z.pos p + 1) 2 (Z.pos p) 1) by lia.
  - split; [|done]. rewrite Pos2Z.inj_xO.
    by rewrite <- (Z.div_unique (2 * Z.pos p) 2 (Z.pos p) 0) by lia.
Qed.

Lemma shr_iter (m : Z) (j : nat) :
  0 ≤ m →
  shr_m (Nat.iter (S j) shr_1 (Build_shr_record m false false)) = m / 2 ^ Z.of_nat (S j) ∧
  shr_r (Nat.iter (S j) shr_1 (Build_shr_record m false false)) =
    Z.odd (m / 2 ^ Z.of_nat j).
Proof.
  intros Hm. induction j as [|j [IHm IHr]].
  - change (Nat.iter 1 shr_1 ?x) with (shr_1 x). destruct (shr_1_m (Build_shr_record m false false) Hm) as [H1 H2].
    cbn [shr_m] in *. rewrite H1, H2. rewrite Z.pow_0_r, Z.div_1_r. by rewrite Z.pow_1_r.
  - set (R := Nat.iter (S j) shr_1 (Build_shr_record m false false)) in *.
    change (Nat.iter (S (S j)) shr_1 ?x) with (shr_1 (Nat.iter (S j) shr_1 x)). fold R.
    assert (0 ≤ shr_m R) as HR by (rewrite IHm; apply Z.div_pos; lia).
    destruct (shr_1_m R HR) as [H1 H2]. rewrite H1, H2, IHm. split; [|done].
    rewrite Z.div_div by lia. f_equal.
    rewrite (Nat2Z.inj_succ (S j)), Z.pow_succ_r by lia. lia.
Qed.

Lemma iter_xO (p k : positive) : Z.pos (Pos.iter xO p k) = Z.pos p * 2 ^ Z.pos k.
Proof.
  induction k as [|k IH] using Pos.peano_ind.
  - cbn [Pos.iter]. rewrite Pos2Z.inj_xO. lia.
  - rewrite Pos.iter_succ, Pos2Z.inj_xO, IH, Pos2Z.inj_succ, Z.pow_succ_r by lia. lia.
Qed.

(** A mantissa of at most 54 bits and at least 53 is brought to 53 bits by
    the second rounding step, which ends on a finite number when the
    exponent allows. *)
Lemma last_step (m e : Z) :
  2 ^ 52 ≤ m ≤ 2 ^ 53 → -1074 ≤ e → e ≤ 971 → (m = 2 ^ 53 → e ≤ 970) →
  ∃ m' e',
    (let '(mrs, e'') := shr_fexp prec emax m e loc_Exact in
     match shr_m mrs with
     | Z0 => S754_zero false
     | Z.pos m0 => if e'' <=? emax - prec then S754_finite false m0 e'' else S754_infinity false
     | Z.neg _ => S754_nan
     end) = S754_finite false m' e'.
Proof.
  intros Hm He1 He2 He3.
  destruct m as [|q|q]; [lia| |lia].
  unfold shr_fexp, fexp, emin. cbn [Zdigits2 shr_record_of_loc].
  destruct (Z.eq_dec (Z.pos q) (2 ^ 53)) as [Heq|Hne].
  - assert (Z.pos (digits2_pos q) = 54) as -> by (apply digits2_unique; rewrite Heq; lia).
    replace (Z.max (54 + e - prec) (3 - emax - prec) - e) with 1 by (unfold prec, emax; lia).
    cbn [shr SpecFloat.iter_pos].
    injection Heq as ->. cbn [shr_1 shr_m].
    destruct (Z.leb_spec (e + 1) (emax - prec)); [by eauto|].
    unfold emax, prec in *. specialize (He3 eq_refl). lia.
  - assert (Z.pos (digits2_pos q) = 53) as -> by (apply digits2_unique; lia).
    replace (Z.max (53 + e - prec) (3 - emax - prec) - e) with 0 by (unfold prec, emax; lia).
    cbn [shr shr_m].
    destruct (Z.leb_spec e (emax - prec)); [by eauto|].
    unfold emax, prec in *. lia.
Qed.

(** Python converts to a finite double every positive integer below
    [2^1024 - 2^970], the midpoint between the largest double and [2^1024]. *)
Lemma float_of_int_finite (n : Z) :
  0 < n < 2 ^ 1024 - 2 ^ 970 → is_Some (float_of_int n).
Proof.
  intros [Hpos Hlt]. destruct n as [|p|p]; [lia| |lia].
  assert (∃ m e, binary_normalize prec emax (Z.pos p) 0 false = S754_finite false m e)
    as (m & e & Hfin); [|unfold float_of_int; rewrite Hfin; by eauto].
  pose proof (digits2_bounds p) as [Hl Hu].
  assert (Z.pos (digits2_pos p) ≤ 1024) as Hd.
  { destruct (Z.le_gt_cases (Z.pos (digits2_pos p)) 1024) as [|Hgt]; [done|].
    assert (2 ^ 1024 ≤ 2 ^ (Z.pos (digits2_pos p) - 1)) by (apply Z.pow_le_mono_r; lia).
    assert (0 < 2 ^ 970) by (by apply Z.pow_pos_nonneg). lia. }
  cbn [binary_normalize]. unfold binary_round, shl_align, fexp, emin.
  set (d := Z.pos (digits2_pos p)) in *.
  replace (Z.max (d + 0 - prec) (3 - emax - prec) - 0) with (d - 53) by (unfold prec, emax; lia).
  replace (Z.max (d + 0 - prec) (3 - emax - prec)) with (d - 53) by (unfold prec, emax; lia).
  unfold binary_round_aux.
  destruct (d - 53) as [|k|k] eqn:Hk.
  - (* exactly 53 bits *)
    unfold shr_fexp at 1, fexp, emin. cbn [Zdigits2 shr_record_of_loc]. fold d.
    replace (Z.max (d + 0 - prec) (3 - emax - prec) - 0) with 0 by (unfold prec, emax; lia).
    cbn [shr shr_m loc_of_shr_record round_nearest_even].
    apply last_step; [|lia|lia|].
    + replace 52 with (d - 1) by lia. replace 53 with d by lia. lia.
    + intros _. lia.
  - (* more than 53 bits: the low ones are shifted out *)
    unfold shr_fexp at 1, fexp, emin. cbn [Zdigits2 shr_record_of_loc]. fold d.
    replace (Z.max (d + 0 - prec) (3 - emax - prec) - 0) with (Z.pos k) by (unfold prec, emax; lia).
    cbn [shr]. rewrite iter_pos_nat.
    destruct (Pos2Nat.is_succ k) as [j Hj]. rewrite Hj.
    destruct (shr_iter (Z.pos p) j ltac:(lia)) as [Hm Hr].
    assert (Z.of_nat (S j) = Z.pos k) as Hjk by lia.
    rewrite Hjk in Hm.
    destruct (Nat.iter (S j) shr_1 _) as [m1 r1 s1]. cbn [shr_m shr_r] in *.
    assert (2 ^ 52 ≤ m1 < 2 ^ 53) as Hm1.
    { subst m1. assert (0 < 2 ^ Z.pos k) by (by apply Z.pow_pos_nonneg).
      assert (2 ^ (d - 1) = 2 ^ 52 * 2 ^ Z.pos k) as E1
        by (rewrite <- Z.pow_add_r by lia; f_equal; lia).
      assert (2 ^ d = 2 ^ 53 * 2 ^ Z.pos k) as E2
        by (rewrite <- Z.pow_add_r by lia; f_equal; lia).
      split.
      - apply Z.div_le_lower_bound; lia.
      - apply Z.div_lt_upper_bound; lia. }
    assert (m1 ≤ round_nearest_even m1 (loc_of_shr_record (Build_shr_record m1 r1 s1)) ≤ m1 + 1 ∧
            (round_nearest_even m1 (loc_of_shr_record (Build_shr_record m1 r1 s1)) = m1 + 1 →
             r1 = true)) as [Hround Hup].
    { destruct r1, s1; cbn [loc_of_shr_record round_nearest_even];
        try destruct (Z.even m1); split; try lia; done. }
    cbn [shr_m].
    apply last_step; [lia|lia|lia|].
    intros Hcarry.
    destruct (Z.le_gt_cases (Z.pos k) 970) as [|Hbig]; [lia|]. exfalso.
    assert (Z.pos k = 971) as Hk971 by lia.
    assert (m1 = 2 ^ 53 - 1) as Hm1' by lia.
    assert (r1 = true) as -> by (apply Hup; lia).
    assert (Z.of_nat j = 970) as Hj970 by lia.
    rewrite Hj970 in Hr. rewrite Hk971 in Hm.
    assert (Z.pos p `div` 2 ^ 970 = 2 * (Z.pos p `div` 2 ^ 971) + 1) as Hq.
    { assert (2 ^ 971 = 2 ^ 970 * 2) as ->
        by (change 971 with (Z.succ 970); rewrite Z.pow_succ_r by lia; lia).
      rewrite <- Z.div_div by lia.
      rewrite (Z.div_mod (Z.pos p `div` 2 ^ 970) 2) at 1 by lia.
      rewrite <- Z.bit0_mod, Z.bit0_odd, <- Hr. cbn [Z.b2z]. lia. }
    assert (0 < 2 ^ 970) by (by apply Z.pow_pos_nonneg).
    assert (2 ^ 970 * (Z.pos p `div` 2 ^ 970) ≤ Z.pos p) by (apply Z.mul_div_le; lia).
    assert (2 ^ 1024 = 2 ^ 54 * 2 ^ 970) as E by (by rewrite <- Z.pow_add_r).
    rewrite <- Hm, Hm1' in Hq. rewrite Hq in *. nia.
  - (* fewer than 53 bits: the mantissa is shifted up *)
    unfold shr_fexp at 1, fexp, emin. cbn [Zdigits2 shr_record_of_loc].
    assert (Z.pos (digits2_pos (Pos.iter xO p k)) = 53) as ->.
    { apply digits2_unique. rewrite iter_xO.
      assert (0 < 2 ^ Z.pos k) by (by apply Z.pow_pos_nonneg).
      replace (53 - 1) with 52 by lia.
      assert (2 ^ 52 = 2 ^ (d - 1) * 2 ^ Z.pos k) as ->
        by (rewrite <- Z.pow_add_r by lia; f_equal; lia).
      assert (2 ^ 53 = 2 ^ d * 2 ^ Z.pos k) as ->
        by (rewrite <- Z.pow_add_r by lia; f_equal; lia).
      nia. }
    replace (Z.max (53 + Z.neg k - prec) (3 - emax - prec) - Z.neg k) with 0
      by (unfold prec, emax; lia).
    cbn [shr shr_m loc_of_shr_record round_nearest_even].
    assert (2 ^ 52 ≤ Z.pos (Pos.iter xO p k) < 2 ^ 53) as Hb.
    { rewrite iter_xO.
      assert (0 < 2 ^ Z.pos k) by (by apply Z.pow_pos_nonneg).
      assert (2 ^ 52 = 2 ^ (d - 1) * 2 ^ Z.pos k) as ->
        by (rewrite <- Z.pow_add_r by lia; f_equal; lia).
      assert (2 ^ 53 = 2 ^ d * 2 ^ Z.pos k) as ->
        by (rewrite <- Z.pow_add_r by lia; f_equal; lia).
      nia. }
    apply last_step; [lia|lia|lia|lia].
Qed.

(** The generator returns a descriptor for every positive size below
    [2^1024 - 2^970] (about 1.8e308), and that bound is sharp: at the bound
    itself the conversion of the size to a float overflows. *)
Theorem generator_accepts_sizes_below_overflow (size : Z) :
  0 < size < 2 ^ 1024 - 2 ^ 970 →
  is_Some (Svg.generate_svg size) ∧ Svg.generate_svg (2 ^ 1024 - 2 ^ 970) = None.
Proof.
  intros H. split.
  - apply SvgFacts.generate_svg_defined. by apply float_of_int_finite.
  - vm_compute. reflexivity.
Qed.

Lemma generator_accepts_sizes_below_overflow_witness :
  is_Some (Svg.generate_svg (2 ^ 1024 - 2 ^ 970 - 1)).
Proof.
  apply (generator_accepts_sizes_below_overflow (2 ^ 1024 - 2 ^ 970 - 1)).
  vm_compute. split; reflexivity.
Defined.

End RangeFacts.
